(** * Sparse operators of pytensor: construction, extraction and their gradients

    A shallow embedding of the evaluation ([perform]) and gradient ([grad])
    rules of [pytensor/sparse/basic.py].

    Conventions of the model.
    - Element values of arrays and matrices are exact integers ([Z]); the
      rounding of floating-point dtypes is outside the model.  The dtype is
      carried as a tag.
    - Index, pointer and shape vectors are lists of [Z]; the conversion
      [np.asarray(_, dtype="int32")] is written out with its wrap-around.
    - A scipy compressed matrix is the record of its class (csr or csc),
      dtype, [data], [indices], [indptr] and [shape].  The scipy constructor
      called with [copy=False] is the library primitive that stores the four
      parts; the library's own consistency checks are not part of this
      repository and are not modelled.
    - Code that can raise returns a [result]. *)

From Stdlib Require Import ZArith QArith Lia.
From stdpp Require Import base numbers list strings sorting.

Open Scope Z_scope.

(** ** Exceptions and the error monad *)

Inductive exn : Type :=
  | ValueError (msg : string) (args : list (list Z))
  | IndexError
  | AssertionError
  | TypeError (msg : string)
  | AttributeError
  | NotImplementedError
  | Exception (msg : string) (args : list (list Z)).

Inductive result (A : Type) : Type :=
  | Ok (a : A)
  | Raise (e : exn).
Arguments Ok {A} a.
Arguments Raise {A} e.

#[global] Instance result_bind : MBind result :=
  fun A B (k : A -> result B) (r : result A) =>
    match r with
    | Ok a => k a
    | Raise e => Raise e
    end.

#[global] Instance result_ret : MRet result := fun A (a : A) => Ok a.

(** [for x in xs: s = body x s], stopping at the first exception. *)
Fixpoint for_each {S A : Type} (xs : list A) (body : A -> S -> result S) (s : S)
  : result S :=
  match xs with
  | [] => Ok s
  | x :: xs' => s' ← body x s; for_each xs' body s'
  end.

(** ** Python and numpy primitives *)

(** [range(lo, hi)] *)
Definition range (lo hi : Z) : list Z := seqZ lo (hi - lo).

Definition len {A : Type} (l : list A) : Z := Z.of_nat (length l).

(** [l[i]]: a negative index counts from the end, anything else out of
    range raises [IndexError]. *)
Definition norm_index {A : Type} (l : list A) (i : Z) : option nat :=
  if bool_decide (0 <= i < len l) then Some (Z.to_nat i)
  else if bool_decide (- len l <= i < 0) then Some (Z.to_nat (len l + i))
  else None.

Definition getitem {A : Type} (l : list A) (i : Z) : result A :=
  match norm_index l i with
  | Some n => match l !! n with Some a => Ok a | None => Raise IndexError end
  | None => Raise IndexError
  end.

(** [l[i] = v] *)
Definition setitem {A : Type} (l : list A) (i : Z) (v : A) : result (list A) :=
  match norm_index l i with
  | Some n => Ok (<[n := v]> l)
  | None => Raise IndexError
  end.

(** [np.zeros(n)] *)
Definition np_zeros (n : Z) : result (list Z) :=
  if bool_decide (n < 0)
  then Raise (ValueError "negative dimensions are not allowed" [])
  else Ok (replicate (Z.to_nat n) 0).

(** Conversion of an integer to the signed 32-bit range, as an integer
    array cast does. *)
Definition to_int32 (z : Z) : Z := (z + 2 ^ 31) mod 2 ^ 32 - 2 ^ 31.

(** [np.asarray(l, dtype="int32")] *)
Definition asarray_int32 (l : list Z) : list Z := map to_int32 l.

Definition int32_range (z : Z) : Prop := - 2 ^ 31 <= z < 2 ^ 31.

(** ** Data model *)

Inductive format : Type := csr | csc.

Inductive dtype : Type :=
  | Int8 | Int16 | Int32 | Int64
  | UInt8 | UInt16 | UInt32 | UInt64
  | Float16 | Float32 | Float64
  | Complex64 | Complex128.

#[global] Instance format_eq_dec : EqDecision format.
Proof. solve_decision. Defined.

#[global] Instance dtype_eq_dec : EqDecision dtype.
Proof. solve_decision. Defined.

(** [complex_dtypes], [float_dtypes], [int_dtypes], [uint_dtypes]: the
    prefixes of the dtype names. *)
Definition complex_dtypes : list dtype := [Complex64; Complex128].
Definition float_dtypes : list dtype := [Float16; Float32; Float64].
Definition int_dtypes : list dtype := [Int8; Int16; Int32; Int64].
Definition uint_dtypes : list dtype := [UInt8; UInt16; UInt32; UInt64].
Definition continuous_dtypes : list dtype := complex_dtypes ++ float_dtypes.
Definition discrete_dtypes : list dtype := int_dtypes ++ uint_dtypes.

Definition dtype_in (d : dtype) (l : list dtype) : bool := bool_decide (d ∈ l).

(** A one-dimensional array of values with its dtype. *)
Record vector : Type := Vector {
  v_dtype : dtype;
  v_data : list Z
}.

(** A two-dimensional dense array, row by row. *)
Record ndarray : Type := NDArray {
  nd_dtype : dtype;
  nd_shape : Z * Z;
  nd_rows : list (list Z)
}.

(** A scipy compressed sparse matrix. *)
Record spmatrix : Type := SpMatrix {
  sp_format : format;
  sp_dtype : dtype;
  sp_data : list Z;
  sp_indices : list Z;
  sp_indptr : list Z;
  sp_shape : Z * Z
}.

Definition major_dim (M : spmatrix) : Z :=
  match sp_format M with csr => fst (sp_shape M) | csc => snd (sp_shape M) end.

Definition minor_dim (M : spmatrix) : Z :=
  match sp_format M with csr => snd (sp_shape M) | csc => fst (sp_shape M) end.

Fixpoint nondecreasing (l : list Z) : Prop :=
  match l with
  | a :: (b :: _) as t => a <= b /\ nondecreasing t
  | _ => True
  end.

(** The representation invariant scipy maintains for a compressed matrix. *)
Record sp_wf (M : spmatrix) : Prop := SpWf {
  wf_rows : 0 <= fst (sp_shape M);
  wf_cols : 0 <= snd (sp_shape M);
  wf_data : length (sp_data M) = length (sp_indices M);
  wf_ptr_len : len (sp_indptr M) = major_dim M + 1;
  wf_ptr_first : sp_indptr M !! 0%nat = Some 0;
  wf_ptr_last : last (sp_indptr M) = Some (len (sp_indices M));
  wf_ptr_mono : nondecreasing (sp_indptr M);
  wf_minor : Forall (fun j => 0 <= j < minor_dim M) (sp_indices M)
}.

(** Every index, pointer and shape entry is representable on 32 bits. *)
Definition fits_int32 (M : spmatrix) : Prop :=
  Forall int32_range (sp_indices M) /\
  Forall int32_range (sp_indptr M) /\
  int32_range (fst (sp_shape M)) /\ int32_range (snd (sp_shape M)).

Definition dense_wf (D : ndarray) : Prop :=
  0 <= fst (nd_shape D) /\ 0 <= snd (nd_shape D) /\
  len (nd_rows D) = fst (nd_shape D) /\
  Forall (fun r => len r = snd (nd_shape D)) (nd_rows D).

(** ** CSMProperties and CSM: evaluation *)

Record csm_parts : Type := CsmParts {
  p_data : vector;
  p_indices : list Z;
  p_indptr : list Z;
  p_shape : list Z
}.

(** [CSMProperties.perform].  The data vector is handed out as it is (the
    conversion of int32 data to int32 changes nothing); the index, pointer
    and shape vectors are converted to int32. *)
Definition CSMProperties_perform (csm : spmatrix) : csm_parts :=
  {| p_data := Vector (sp_dtype csm) (sp_data csm);
     p_indices := asarray_int32 (sp_indices csm);
     p_indptr := asarray_int32 (sp_indptr csm);
     p_shape := asarray_int32 [fst (sp_shape csm); snd (sp_shape csm)] |}.

(** [scipy.sparse.csc_matrix((data, indices, indptr), shape, copy=False)] and
    its csr twin, on a shape vector of two entries. *)
Definition scipy_compressed (fmt : format) (data : vector)
    (indices indptr : list Z) (_shape : list Z) : spmatrix :=
  {| sp_format := fmt;
     sp_dtype := v_dtype data;
     sp_data := v_data data;
     sp_indices := indices;
     sp_indptr := indptr;
     sp_shape := (nth 0 _shape 0, nth 1 _shape 0) |}.

Definition shape_error : exn :=
  ValueError "Shape should be an array of length 2" [].

Definition data_indices_error (data : vector) (indices : list Z) : exn :=
  ValueError "Data (shape _ must have the same number of elements as indices (shape _)"
    [[len (v_data data)]; [len indices]].

(** [CSM.perform] *)
Definition CSM_perform (fmt : format) (data : vector)
    (indices indptr _shape : list Z) : result spmatrix :=
  if negb (bool_decide (len _shape = 2)) then Raise shape_error
  else if negb (bool_decide (len (v_data data) = len indices))
  then Raise (data_indices_error data indices)
  else match fmt with
       | csc => Ok (scipy_compressed csc data indices indptr _shape)
       | csr => Ok (scipy_compressed csr data indices indptr _shape)
       end.


(** ** Gradient of construction: CSMGrad *)

(** The body of the loop over the major index [i] in [CSMGrad.perform]:
    scatter the gradient's entries of line [i] into the buffer, gather at the
    forward pattern's indices, clear the buffer. *)
Definition csm_grad_scatter (g_data g_indices : list Z) (j_ptr : Z)
    (g_row : list Z) : result (list Z) :=
  k ← getitem g_indices j_ptr;
  old ← getitem g_row k;
  v ← getitem g_data j_ptr;
  setitem g_row k (old + v).

Definition csm_grad_gather (x_indices g_row : list Z) (j_ptr : Z)
    (gout_data : list Z) : result (list Z) :=
  k ← getitem x_indices j_ptr;
  v ← getitem g_row k;
  setitem gout_data j_ptr v.

Definition csm_grad_clear (g_indices : list Z) (j_ptr : Z)
    (g_row : list Z) : result (list Z) :=
  k ← getitem g_indices j_ptr;
  setitem g_row k 0.

Definition csm_grad_line (x_indices x_indptr g_data g_indices g_indptr : list Z)
    (i : Z) (st : list Z * list Z) : result (list Z * list Z) :=
  let '(g_row, gout_data) := st in
  g_lo ← getitem g_indptr i;
  g_hi ← getitem g_indptr (i + 1);
  g_row ← for_each (range g_lo g_hi) (csm_grad_scatter g_data g_indices) g_row;
  x_lo ← getitem x_indptr i;
  x_hi ← getitem x_indptr (i + 1);
  gout_data ← for_each (range x_lo x_hi) (csm_grad_gather x_indices g_row) gout_data;
  g_lo' ← getitem g_indptr i;
  g_hi' ← getitem g_indptr (i + 1);
  g_row ← for_each (range g_lo' g_hi') (csm_grad_clear g_indices) g_row;
  Ok (g_row, gout_data).

(** [CSMGrad.perform]; the output takes the dtype of [g_data], as
    [make_node] declares it. *)
Definition CSMGrad_perform (x_data : vector) (x_indices x_indptr x_shape : list Z)
    (g_data : vector) (g_indices g_indptr g_shape : list Z) : result vector :=
  x_shape0 ← getitem x_shape 0;
  sp_dim ← (if bool_decide (len x_indptr - 1 = x_shape0)
            then getitem x_shape 1
            else getitem x_shape 0);
  g_row ← np_zeros sp_dim;
  gout_data ← np_zeros (len (v_data x_data));
  st ← for_each (range 0 (len x_indptr - 1))
         (csm_grad_line x_indices x_indptr (v_data g_data) g_indices g_indptr)
         (g_row, gout_data);
  Ok (Vector (v_dtype g_data) (snd st)).


(** ** Structured dot: evaluation and gradient *)

(** [np.dot] of two one-dimensional arrays. *)
Fixpoint dot (u v : list Z) : Z :=
  match u, v with
  | a :: u', b :: v' => a * b + dot u' v'
  | _, _ => 0
  end.

Definition np_dot (u v : list Z) : result Z :=
  if bool_decide (length u = length v) then Ok (dot u v)
  else Raise (ValueError "shapes not aligned" [[len u]; [len v]]).

Definition sdg_entry (a_indices : list Z) (b g_ab : ndarray) (i : Z)
    (j_idx : Z) (g_a_data : list Z) : result (list Z) :=
  j ← getitem a_indices j_idx;
  g_i ← getitem (nd_rows g_ab) i;
  b_j ← getitem (nd_rows b) j;
  dot_val ← np_dot g_i b_j;
  setitem g_a_data j_idx dot_val.

Definition sdg_csr_line (a_indices a_indptr : list Z) (b g_ab : ndarray) (i : Z)
    (g_a_data : list Z) : result (list Z) :=
  ind0 ← getitem a_indptr i;
  ind1 ← getitem a_indptr (i + 1);
  for_each (range ind0 ind1) (sdg_entry a_indices b g_ab i) g_a_data.

(** [StructuredDotGradCSR.perform], on a dense [b] and a dense [g_ab]. *)
Definition StructuredDotGradCSR_perform (a_indices a_indptr : list Z)
    (b g_ab : ndarray) : result vector :=
  g_a_data ← np_zeros (len a_indices);
  g_a_data ← for_each (range 0 (len a_indptr - 1))
               (sdg_csr_line a_indices a_indptr b g_ab) g_a_data;
  Ok (Vector (nd_dtype g_ab) g_a_data).

Definition sdg_csc_entry (a_indices : list Z) (b g_ab : ndarray) (j : Z)
    (i_idx : Z) (g_a_data : list Z) : result (list Z) :=
  i ← getitem a_indices i_idx;
  g_i ← getitem (nd_rows g_ab) i;
  b_j ← getitem (nd_rows b) j;
  dot_val ← np_dot g_i b_j;
  setitem g_a_data i_idx dot_val.

Definition sdg_csc_line (a_indices a_indptr : list Z) (b g_ab : ndarray) (j : Z)
    (g_a_data : list Z) : result (list Z) :=
  ind0 ← getitem a_indptr j;
  ind1 ← getitem a_indptr (j + 1);
  for_each (range ind0 ind1) (sdg_csc_entry a_indices b g_ab j) g_a_data.

(** [StructuredDotGradCSC.perform], on a dense [b] and a dense [g_ab]. *)
Definition StructuredDotGradCSC_perform (a_indices a_indptr : list Z)
    (b g_ab : ndarray) : result vector :=
  g_a_data ← np_zeros (len a_indices);
  g_a_data ← for_each (range 0 (len a_indptr - 1))
               (sdg_csc_line a_indices a_indptr b g_ab) g_a_data;
  Ok (Vector (nd_dtype g_ab) g_a_data).

(** [structured_dot_grad], evaluated: the index, pointer and shape vectors
    come out of [csm_properties], the data vector out of the format's
    gradient operator, and [CSC] or [CSR] rebuilds the matrix. *)
Definition structured_dot_grad_eval (sparse_A : spmatrix) (dense_B ga : ndarray)
    : result spmatrix :=
  let p := CSMProperties_perform sparse_A in
  match sp_format sparse_A with
  | csc =>
      g_A_data ← StructuredDotGradCSC_perform (p_indices p) (p_indptr p) dense_B ga;
      CSM_perform csc g_A_data (p_indices p) (p_indptr p) (p_shape p)
  | csr =>
      g_A_data ← StructuredDotGradCSR_perform (p_indices p) (p_indptr p) dense_B ga;
      CSM_perform csr g_A_data (p_indices p) (p_indptr p) (p_shape p)
  end.

(** Position [p] of the data vector of [M] stores the entry of row [i] and
    column [j]. *)
Definition stored_at (M : spmatrix) (p : nat) (i j : Z) : Prop :=
  let major := match sp_format M with csr => i | csc => j end in
  let minor := match sp_format M with csr => j | csc => i end in
  exists lo hi,
    0 <= major /\
    sp_indptr M !! Z.to_nat major = Some lo /\
    sp_indptr M !! Z.to_nat (major + 1) = Some hi /\
    lo <= Z.of_nat p < hi /\
    sp_indices M !! p = Some minor.

(** The brute-force dense gradient [output_grad @ B.T], written from the
    textbook definitions of transpose and matrix product. *)
Definition column (c : nat) (rows : list (list Z)) : list Z :=
  map (fun r => nth c r 0) rows.

Definition transpose_rows (ncols : nat) (rows : list (list Z)) : list (list Z) :=
  map (fun c => column c rows) (seq 0 ncols).

Definition matmul_rows (ncols : nat) (X Y : list (list Z)) : list (list Z) :=
  map (fun r => map (fun c => dot r (column c Y)) (seq 0 ncols)) X.

Definition dense_grad_A (ga dense_B : ndarray) : list (list Z) :=
  matmul_rows (Z.to_nat (fst (nd_shape dense_B))) (nd_rows ga)
    (transpose_rows (Z.to_nat (snd (nd_shape dense_B))) (nd_rows dense_B)).

Definition entry (rows : list (list Z)) (i j : Z) : option Z :=
  r ← rows !! Z.to_nat i; r !! Z.to_nat j.


(** ** StructuredDot: evaluation *)

Inductive matrix_value : Type :=
  | Dense (m : ndarray)
  | Sparse (s : spmatrix).

Definition value_shape (v : matrix_value) : Z * Z :=
  match v with
  | Dense m => nd_shape m
  | Sparse s => sp_shape s
  end.

Definition shape_list (sh : Z * Z) : list Z := [fst sh; snd sh].

(** What the library product [a * b] of a sparse matrix can hand back: a
    sparse matrix, or an array of rank one, two, or another rank. *)
Inductive product : Type :=
  | ProdSparse (s : spmatrix)
  | ProdArray1 (v : vector)
  | ProdArray2 (m : ndarray)
  | ProdArrayN (ndim : Z).

(** [np.expand_dims(v, 1)] on a one-dimensional array. *)
Definition expand_dims_1 (v : vector) : ndarray :=
  {| nd_dtype := v_dtype v;
     nd_shape := (len (v_data v), 1);
     nd_rows := map (fun x => [x]) (v_data v) |}.

Section StructuredDot.

(** The product of the sparse-matrix library, [a * b]. *)
Variable scipy_mul : spmatrix -> matrix_value -> product.

Definition shape_mismatch (a : spmatrix) (b : matrix_value) : exn :=
  ValueError "shape mismatch in StructuredDot.perform"
    [shape_list (sp_shape a); shape_list (value_shape b)].

(** The end of [StructuredDot.perform], once [variable] is a matrix: its
    shape is checked and it is stored as the output. *)
Definition store_dense (a : spmatrix) (b : matrix_value) (variable : ndarray)
    : result matrix_value :=
  if negb (bool_decide (nd_shape variable
                        = (fst (sp_shape a), snd (value_shape b))))
  then
    if bool_decide (fst (value_shape b) = 1)
    then Raise (Exception "scipy.csc_matrix.dot has a bug with singleton dimensions"
                  [shape_list (sp_shape a); shape_list (value_shape b);
                   shape_list (nd_shape variable)])
    else Raise (Exception "a.shape, b.shape, variable.shape?"
                  [shape_list (sp_shape a); shape_list (value_shape b);
                   shape_list (nd_shape variable)])
  else Ok (Dense variable).

(** [StructuredDot.perform]; [out_sparse] tells whether the node's output
    type is a [SparseTensorType]. *)
Definition StructuredDot_perform (out_sparse : bool) (a : spmatrix)
    (b : matrix_value) : result matrix_value :=
  if negb (bool_decide (snd (sp_shape a) = fst (value_shape b)))
  then Raise (shape_mismatch a b)
  else
    let variable := scipy_mul a b in
    if out_sparse then
      match variable with
      | ProdSparse s => Ok (Sparse s)
      | _ => Raise AssertionError
      end
    else
      match variable with
      | ProdSparse _ => Raise AssertionError
      | ProdArray1 v => store_dense a b (expand_dims_1 v)
      | ProdArray2 m => store_dense a b m
      | ProdArrayN _ =>
          Raise (Exception "Output of structured dot should be a matrix (ndim=2)" [])
      end.

End StructuredDot.

(** ** Signatures of sparse constants *)

(** Modelled from the spec: the type descriptor of a sparse variable
    ([pytensor.sparse.type] is not among the sources), with its storage layout
    and dtype; the shape signature of a sparse type is always two unknown
    lengths.  Two descriptors are equal when their fields are. *)
Record SparseTensorType : Type := {
  st_format : format;
  st_dtype : dtype
}.

#[global] Instance SparseTensorType_eq_dec : EqDecision SparseTensorType.
Proof. solve_decision. Defined.

Definition sumZ (l : list Z) : Z := foldr Z.add 0 l.

(** The value position [q] of [data] contributes to the entry of minor index
    [c]: the stored value when the position's index is [c], nothing
    otherwise. *)
Definition stored_term (indices data : list Z) (c q : Z) : Z :=
  if bool_decide (indices !! Z.to_nat q = Some c)
  then default 0 (data !! Z.to_nat q) else 0.

(** The sum of the values stored in [data] at the positions [lo..hi-1] whose
    minor index is [c]: the entry that line of a compressed matrix holds in
    column (or row) [c]. *)
Definition stored_sum (indices data : list Z) (lo hi c : Z) : Z :=
  sumZ (map (stored_term indices data c) (range lo hi)).

(** [M.toarray()[i][j]] *)
Definition sp_get (M : spmatrix) (i j : Z) : Z :=
  let major := match sp_format M with csr => i | csc => j end in
  let minor := match sp_format M with csr => j | csc => i end in
  stored_sum (sp_indices M) (sp_data M)
    (default 0 (sp_indptr M !! Z.to_nat major))
    (default 0 (sp_indptr M !! Z.to_nat (major + 1))) minor.


(** [M.nnz], the number of stored entries, explicit zeros included. *)
Definition nnz (M : spmatrix) : Z := len (sp_data M).







(** ** The symbolic graph *)

Set Warnings "-register-all".

Inductive vtype : Type :=
  | SparseTensor (fmt : format) (dt : dtype)
  | TensorType (dt : dtype) (ndim : nat)
  | DisconnectedType.

#[global] Instance vtype_eq_dec : EqDecision vtype.
Proof. solve_decision. Defined.

(** The operators of this file, and [ExtOp] for an operator or helper of
    the dense tensor library ([pytensor.tensor], not among the sources):
    such a node is kept by name, with the types of its outputs, and is
    given no meaning of its own. *)
Inductive Op : Type :=
  | OpCSMProperties
  | OpCSM (fmt : format)
  | OpCSMGrad
  | OpDenseFromSparse
  | OpSparseFromDense (fmt : format)
  | OpTranspose
  | OpColScaleCSC
  | OpRowScaleCSC
  | OpSpSum (axis : option Z) (structured : bool)
  | OpHStack (fmt : format) (dt : dtype)
  | OpVStack (fmt : format) (dt : dtype)
  | ExtOp (name : string) (outs : list vtype).

(** A variable of the graph: an input, a Python integer or an empty array
    turned into a constant, a fresh variable of a type ([T()]), or output
    [k] of the node that applies [op] to [args]. *)
Inductive expr : Type :=
  | Var (name : string) (ty : vtype)
  | Lit (z : Z)
  | EmptyArray (dt : dtype)
  | Fresh (ty : vtype)
  | App (op : Op) (args : list expr) (k : nat).

Definition type_dtype (t : vtype) : option dtype :=
  match t with
  | SparseTensor _ dt => Some dt
  | TensorType dt _ => Some dt
  | DisconnectedType => None
  end.

Definition format_map (f : format) : format :=
  match f with csr => csc | csc => csr end.

(** The type of input [i] of a node, from the types of its inputs. *)
Definition in_type (ins : list (option vtype)) (i : nat) : option vtype :=
  default None (ins !! i).

(** The output types each operator's [make_node] declares, from the types
    of the inputs; [None] where the node cannot be built. *)
Definition out_type (op : Op) (ins : list (option vtype)) (k : nat)
    : option vtype :=
  match op with
  | OpCSMProperties =>
      dt ← in_type ins 0 ≫= type_dtype;
      Some (match k with O => TensorType dt 1 | _ => TensorType Int32 1 end)
  | OpCSM fmt => dt ← in_type ins 0 ≫= type_dtype; Some (SparseTensor fmt dt)
  | OpCSMGrad => in_type ins 4
  | OpDenseFromSparse => dt ← in_type ins 0 ≫= type_dtype; Some (TensorType dt 2)
  | OpSparseFromDense fmt =>
      dt ← in_type ins 0 ≫= type_dtype; Some (SparseTensor fmt dt)
  | OpTranspose =>
      match in_type ins 0 with
      | Some (SparseTensor f dt) => Some (SparseTensor (format_map f) dt)
      | _ => None
      end
  | OpColScaleCSC | OpRowScaleCSC => in_type ins 0
  | OpSpSum axis _ =>
      dt ← in_type ins 0 ≫= type_dtype;
      Some (TensorType dt (match axis with None => 0 | Some _ => 1 end))
  | OpHStack fmt dt | OpVStack fmt dt => Some (SparseTensor fmt dt)
  | ExtOp _ outs => outs !! k
  end.

Fixpoint type_of (e : expr) : option vtype :=
  match e with
  | Var _ ty => Some ty
  | Lit _ => Some (TensorType Int64 0)
  | EmptyArray dt => Some (TensorType dt 1)
  | Fresh ty => Some ty
  | App op args k => out_type op (map type_of args) k
  end.

(** [_is_sparse_variable] *)
Definition _is_sparse_variable (x : expr) : bool :=
  match type_of x with Some (SparseTensor _ _) => true | _ => false end.

Definition not_sparse : exn :=
  TypeError "Variable type field must be a SparseTensorType.".

(** [x.format] and [x.dtype] of a sparse variable; [as_sparse_variable]
    raises on a variable of another type. *)
Definition sparse_format (x : expr) : result format :=
  match type_of x with
  | Some (SparseTensor f _) => Ok f
  | _ => Raise not_sparse
  end.

Definition sparse_dtype (x : expr) : result dtype :=
  match type_of x with
  | Some (SparseTensor _ dt) => Ok dt
  | _ => Raise not_sparse
  end.

(** [csm_properties(csm)]: the four outputs of the node. *)
Definition csm_properties (csm : expr) : result (expr * expr * expr * expr) :=
  _ ← sparse_format csm;
  Ok (App OpCSMProperties [csm] 0, App OpCSMProperties [csm] 1,
      App OpCSMProperties [csm] 2, App OpCSMProperties [csm] 3).

Definition is_vector_of_integers (e : expr) : bool :=
  match type_of e with
  | Some (TensorType dt 1) => dtype_in dt discrete_dtypes
  | _ => false
  end.

(** [CSM(fmt)(data, indices, indptr, shape)]: [CSM.make_node] on variables. *)
Definition CSM (fmt : format) (data indices indptr shape : expr) : result expr :=
  match type_of data with
  | Some (TensorType _ 1) =>
      if negb (is_vector_of_integers indices)
      then Raise (TypeError "indices must be vector of integers")
      else if negb (is_vector_of_integers indptr)
      then Raise (TypeError "indices must be vector of integers")
      else if negb (is_vector_of_integers shape)
      then Raise (TypeError "n_rows must be integer type")
      else Ok (App (OpCSM fmt) [data; indices; indptr; shape] 0)
  | _ => Raise (TypeError "data argument must be a vector")
  end.

Definition ext1 (name : string) (ty : option vtype) (args : list expr) : expr :=
  App (ExtOp name (option_list ty)) args 0.

(** [ptb.ones_like], [ptb.zeros_like]: same type as the model. *)
Definition ones_like (x : expr) : expr := ext1 "ones_like" (type_of x) [x].
Definition zeros_like (x : expr) : expr := ext1 "zeros_like" (type_of x) [x].

(** [sp_ones_like] *)
Definition sp_ones_like (x : expr) : result expr :=
  '(data, indices, indptr, _shape) ← csm_properties x;
  fmt ← sparse_format x;
  CSM fmt (ones_like data) indices indptr _shape.

(** [sp_zeros_like] *)
Definition sp_zeros_like (x : expr) : result expr :=
  '(_, _, indptr, _shape) ← csm_properties x;
  fmt ← sparse_format x;
  dt ← sparse_dtype x;
  CSM fmt (EmptyArray dt) (EmptyArray Int32) (zeros_like indptr) _shape.

(** [CSMProperties.grad] *)
Definition CSMProperties_grad (csm : expr) (g : list expr) : result (list expr) :=
  g0 ← getitem g 0;
  if bool_decide (type_of g0 = Some DisconnectedType)
  then z ← sp_zeros_like csm; Ok [z]
  else
    '(data, indices, indptr, _shape) ← csm_properties csm;
    fmt ← sparse_format csm;
    r ← CSM fmt g0 indices indptr _shape;
    Ok [r].

(** [CSM.connection_pattern] *)
Definition CSM_connection_pattern : list (list bool) :=
  [[true]; [false]; [false]; [false]].

(** [csm_grad()(...)]: [CSMGrad.make_node]. *)
Definition csm_grad (x_data x_indices x_indptr x_shape
                     g_data g_indices g_indptr g_shape : expr) : expr :=
  App OpCSMGrad [x_data; x_indices; x_indptr; x_shape;
                 g_data; g_indices; g_indptr; g_shape] 0.

(** [CSM.grad] *)
Definition CSM_grad (x_data x_indices x_indptr x_shape g_out : expr)
    : result (list expr) :=
  '(g_data, g_indices, g_indptr, g_shape) ← csm_properties g_out;
  let g_data := csm_grad x_data x_indices x_indptr x_shape
                  g_data g_indices g_indptr g_shape in
  Ok [g_data; Fresh DisconnectedType; Fresh DisconnectedType;
      Fresh DisconnectedType].

(** [x.dtype] of a variable. *)
Definition variable_dtype (x : expr) : result dtype :=
  match type_of x ≫= type_dtype with
  | Some dt => Ok dt
  | None => Raise AttributeError
  end.

(** [dense_from_sparse(x)]: [DenseFromSparse.__call__] hands a variable that
    is not sparse back unchanged. *)
Definition dense_from_sparse (x : expr) : expr :=
  if _is_sparse_variable x then App OpDenseFromSparse [x] 0 else x.

(** [x.dimshuffle(...)] to a matrix, by its pattern. *)
Definition dimshuffle (pattern : string) (x : expr) : expr :=
  ext1 ("dimshuffle " +:+ pattern)
    (dt ← type_of x ≫= type_dtype; Some (TensorType dt 2)) [x].

(** [SparseFromDense(fmt)(x)]: [__call__] hands a sparse variable back
    unchanged, [make_node] lifts a dense one to two dimensions. *)
Definition SparseFromDense (fmt : format) (x : expr) : result expr :=
  match type_of x with
  | Some (SparseTensor _ _) => Ok x
  | Some (TensorType _ 2) => Ok (App (OpSparseFromDense fmt) [x] 0)
  | Some (TensorType _ 1) =>
      Ok (App (OpSparseFromDense fmt) [dimshuffle "x,0" x] 0)
  | Some (TensorType _ 0) =>
      Ok (App (OpSparseFromDense fmt) [dimshuffle "x,x" x] 0)
  | _ => Raise (TypeError "PyTensor does not have sparse tensor types with more than 2 dimensions")
  end.

(** [transpose(x)], also reached as [x.T]. *)
Definition transpose (x : expr) : result expr :=
  _ ← sparse_format x;
  Ok (App OpTranspose [x] 0).

(** [col_scale] *)
Definition col_scale (x s : expr) : result expr :=
  fmt ← sparse_format x;
  match fmt with
  | csc => Ok (App OpColScaleCSC [x; s] 0)
  | csr => xT ← transpose x; transpose (App OpRowScaleCSC [xT; s] 0)
  end.

(** [row_scale] *)
Definition row_scale (x s : expr) : result expr :=
  xT ← transpose x;
  r ← col_scale xT s;
  transpose r.

(** The helpers of the dense tensor library the gradient rules call, with
    the types of their results.  [second(x, gz)] has the shape of [x] and
    the dtype of [gz]. *)
Definition second (x gz : expr) : expr :=
  ext1 "second"
    (match type_of x, type_of gz ≫= type_dtype with
     | Some (TensorType _ n), Some dt => Some (TensorType dt n)
     | _, _ => None
     end) [x; gz].

Definition specify_broadcastable (x : expr) (ax : Z) : expr :=
  ext1 "specify_broadcastable" (type_of x) [x; Lit ax].

Definition shape (x : expr) : expr :=
  ext1 "shape" (Some (TensorType Int64 1)) [x].

Definition subscript (x : expr) (i : Z) : expr :=
  ext1 "__getitem__" (Some (TensorType Int64 0)) [x; Lit i].

Definition stack (xs : list expr) : expr :=
  ext1 "stack" (Some (TensorType Int64 1)) xs.

(** [x.shape] of a sparse variable *)
Definition sparse_shape (x : expr) : expr := shape (dense_from_sparse x).

(** [Split(n)(x, axis, splits)]: the list of the node's [n] outputs. *)
Definition Split (n : nat) (x : expr) (axis : Z) (splits : expr) : list expr :=
  let outs := match type_of x with Some t => replicate n t | None => [] end in
  map (fun k => App (ExtOp "Split" outs) [x; Lit axis; splits] k) (seq 0 n).

(** *** SpSum *)

Record SpSum : Type := {
  axis : option Z;
  structured : bool
}.

(** [SpSum.__init__(axis=None, sparse_grad=True)]; an argument left out is
    [None] here. *)
Definition SpSum_init (axis : option (option Z)) (sparse_grad : option bool)
    : result SpSum :=
  let axis := default None axis in
  let sparse_grad := default true sparse_grad in
  if negb (bool_decide (axis ∈ [None; Some 0; Some 1]))
  then Raise (ValueError "Illegal value for self.axis." [])
  else Ok {| axis := axis; structured := sparse_grad |}.

(** [SpSum.make_node] *)
Definition SpSum_call (op : SpSum) (x : expr) : result expr :=
  _ ← sparse_format x;
  Ok (App (OpSpSum (axis op) (structured op)) [x] 0).

(** [sp_sum(x, axis=None, sparse_grad=False)] *)
Definition sp_sum (x : expr) (axis : option (option Z)) (sparse_grad : option bool)
    : result expr :=
  let axis := default None axis in
  let sparse_grad := default false sparse_grad in
  op ← SpSum_init (Some axis) (Some sparse_grad);
  SpSum_call op x.

Section Gradients.

(** The dtype promotion of the scalar library, [ps.upcast]. *)
Variable upcast : dtype -> dtype -> dtype.

(** The type of a product [a * b]: the promoted dtype; sparse in the format
    of the sparse operand when there is one, else of the larger rank. *)
Definition mul_type (ta tb : option vtype) : option vtype :=
  match ta, tb with
  | Some (TensorType da na), Some (TensorType db nb) =>
      Some (TensorType (upcast da db) (Nat.max na nb))
  | Some (SparseTensor f dx), Some (TensorType dy _) =>
      Some (SparseTensor f (upcast dx dy))
  | Some (TensorType dy _), Some (SparseTensor f dx) =>
      Some (SparseTensor f (upcast dx dy))
  | Some (SparseTensor f dx), Some (SparseTensor _ dy) =>
      Some (SparseTensor f (upcast dx dy))
  | _, _ => None
  end.

(** The Python product [a * b] of two variables. *)
Definition py_mul (a b : expr) : expr :=
  ext1 "__mul__" (mul_type (type_of a) (type_of b)) [a; b].

(** The structured branch of [SpSum.grad]. *)
Definition SpSum_grad_structured (axis : option Z) (x gz : expr) : result expr :=
  match axis with
  | None => o ← sp_ones_like x; Ok (py_mul gz o)
  | Some 0 => o ← sp_ones_like x; col_scale o gz
  | Some 1 => o ← sp_ones_like x; row_scale o gz
  | Some _ => Raise (ValueError "Illegal value for self.axis." [])
  end.

(** The regular branch of [SpSum.grad]. *)
Definition SpSum_grad_regular (axis : option Z) (x gz : expr) : result expr :=
  o_format ← sparse_format x;
  let x := dense_from_sparse x in
  let gz := if _is_sparse_variable gz then dense_from_sparse gz else gz in
  r ← match axis with
      | None => Ok (second x gz)
      | Some 0 =>
          Ok (py_mul (specify_broadcastable (dimshuffle "x,0" gz) 0) (ones_like x))
      | Some 1 =>
          Ok (py_mul (specify_broadcastable (dimshuffle "0,x" gz) 1) (ones_like x))
      | Some _ => Raise (ValueError "Illegal value for self.axis." [])
      end;
  SparseFromDense o_format r.

(** [SpSum.grad].  On an operand of a discrete dtype the rule calls
    [x.zeros_like(dtype=...)], a method that takes no such argument. *)
Definition SpSum_grad (op : SpSum) (x gz : expr) : result (list expr) :=
  dt ← variable_dtype x;
  if negb (dtype_in dt continuous_dtypes)
  then Raise (TypeError "zeros_like() got an unexpected keyword argument 'dtype'")
  else
    r ← (if structured op
         then SpSum_grad_structured (axis op) x gz
         else SpSum_grad_regular (axis op) x gz);
    Ok [r].

(** [node.op.grad(node.inputs, [gz])] for the node an [sp_sum] call built. *)
Definition SpSum_node_grad (node : expr) (gz : expr) : result (list expr) :=
  match node with
  | App (OpSpSum axis structured) [x] _ =>
      SpSum_grad {| axis := axis; structured := structured |} x gz
  | _ => Raise NotImplementedError
  end.

End Gradients.

(** *** HStack and VStack *)

(** Modelled from the spec: [tensor_continuous_dtypes] of the dense tensor
    library, the dtypes that are not integer-typed: the floating-point and
    the complex ones. *)
Definition tensor_continuous_dtypes : list dtype :=
  [Float16; Float32; Float64; Complex64; Complex128].

Definition choose (continuous : bool) (derivative : expr) : option expr :=
  if continuous then Some derivative else None.

(** The common body of [HStack.grad] (axis 1, column counts) and
    [VStack.grad] (axis 0, row counts). *)
Definition stack_grad (fmt : format) (ax : Z) (inputs : list expr) (gz : expr)
    : result (list (option expr)) :=
  is_continuous ←
    mapM (M := result)
      (fun x => dt ← variable_dtype x; Ok (dtype_in dt tensor_continuous_dtypes))
      inputs;
  let gz := if _is_sparse_variable gz then dense_from_sparse gz else gz in
  let split := Split (length inputs) gz ax
                 (stack (map (fun x => subscript (sparse_shape x) ax) inputs)) in
  derivative ← mapM (M := result) (SparseFromDense fmt) split;
  Ok (zip_with choose is_continuous derivative).

(** [HStack.grad] *)
Definition HStack_grad (fmt : format) (inputs : list expr) (gz : expr)
    : result (list (option expr)) :=
  stack_grad fmt 1 inputs gz.

(** [VStack.grad] *)
Definition VStack_grad (fmt : format) (inputs : list expr) (gz : expr)
    : result (list (option expr)) :=
  stack_grad fmt 0 inputs gz.

(** ** Further operators: evaluation *)

(** [x.transpose()] of the sparse library: the three vectors are kept and
    read in the other layout, the shape is swapped.  [Transpose.perform]
    stores it as the output. *)
Definition Transpose_perform (x : spmatrix) : spmatrix :=
  {| sp_format := format_map (sp_format x);
     sp_dtype := sp_dtype x;
     sp_data := sp_data x;
     sp_indices := sp_indices x;
     sp_indptr := sp_indptr x;
     sp_shape := (snd (sp_shape x), fst (sp_shape x)) |}.

(** [x.copy()] with another data vector. *)
Definition with_data (x : spmatrix) (data : list Z) : spmatrix :=
  {| sp_format := sp_format x;
     sp_dtype := sp_dtype x;
     sp_data := data;
     sp_indices := sp_indices x;
     sp_indptr := sp_indptr x;
     sp_shape := sp_shape x |}.

(** [x.astype(dt)] towards a wider dtype: the values are kept. *)
Definition astype (x : spmatrix) (dt : dtype) : spmatrix :=
  {| sp_format := sp_format x;
     sp_dtype := dt;
     sp_data := sp_data x;
     sp_indices := sp_indices x;
     sp_indptr := sp_indptr x;
     sp_shape := sp_shape x |}.

(** A bound of a slice [a[lo:hi]] on an array of length [n]: a negative
    bound counts from the end, and every bound is clipped to [0..n]. *)
Definition slice_bound (n i : Z) : Z :=
  if bool_decide (i < 0) then Z.max 0 (i + n) else Z.min i n.

(** [data[lo:hi] *= v] *)
Definition imul_slice (data : list Z) (lo hi v : Z) : list Z :=
  let a := slice_bound (len data) lo in
  let b := slice_bound (len data) hi in
  imap (fun k d => if bool_decide (a <= Z.of_nat k < b) then d * v else d) data.

Definition col_scale_line (indptr s : list Z) (j : Z) (data : list Z)
    : result (list Z) :=
  lo ← getitem indptr j;
  hi ← getitem indptr (j + 1);
  s_j ← getitem s j;
  Ok (imul_slice data lo hi s_j).

(** [ColScaleCSC.perform] *)
Definition ColScaleCSC_perform (x : spmatrix) (s : vector) : result spmatrix :=
  let '(M, N) := sp_shape x in
  if negb (bool_decide (sp_format x = csc)) then Raise AssertionError
  else if negb (bool_decide (len (v_data s) = N)) then Raise AssertionError
  else
    data ← for_each (range 0 N) (col_scale_line (sp_indptr x) (v_data s))
              (sp_data x);
    Ok (with_data x data).

Definition row_scale_entry (indices s : list Z) (i_idx : Z) (y_data : list Z)
    : result (list Z) :=
  old ← getitem y_data i_idx;
  i ← getitem indices i_idx;
  s_i ← getitem s i;
  setitem y_data i_idx (old * s_i).

Definition row_scale_line (indices indptr s : list Z) (j : Z) (y_data : list Z)
    : result (list Z) :=
  lo ← getitem indptr j;
  hi ← getitem indptr (j + 1);
  for_each (range lo hi) (row_scale_entry indices s) y_data.

(** [RowScaleCSC.perform] *)
Definition RowScaleCSC_perform (x : spmatrix) (s : vector) : result spmatrix :=
  let '(M, N) := sp_shape x in
  if negb (bool_decide (sp_format x = csc)) then Raise AssertionError
  else if negb (bool_decide (len (v_data s) = M)) then Raise AssertionError
  else
    y_data ← for_each (range 0 N)
                (row_scale_line (sp_indices x) (sp_indptr x) (v_data s))
                (sp_data x);
    Ok (scipy_compressed csc (Vector (sp_dtype x) y_data) (sp_indices x)
          (sp_indptr x) [M; N]).

(** [col_scale], evaluated: a csc matrix goes to [ColScaleCSC]; a csr one is
    transposed, its rows are scaled, and the result is transposed back. *)
Definition col_scale_eval (x : spmatrix) (s : vector) : result spmatrix :=
  match sp_format x with
  | csc => ColScaleCSC_perform x s
  | csr => r ← RowScaleCSC_perform (Transpose_perform x) s;
           Ok (Transpose_perform r)
  end.

(** [row_scale], evaluated: [col_scale(x.T, s).T]. *)
Definition row_scale_eval (x : spmatrix) (s : vector) : result spmatrix :=
  r ← col_scale_eval (Transpose_perform x) s;
  Ok (Transpose_perform r).

(** A dense operand of rank zero, one or two. *)
Inductive dense_value : Type :=
  | DScalar (dt : dtype) (z : Z)
  | DVector (v : vector)
  | DMatrix (m : ndarray).

(** [y[i, j]] on a matrix. *)
Definition getitem2 (y : ndarray) (i j : Z) : result Z :=
  r ← getitem (nd_rows y) i;
  getitem r j.

Definition mul_sd_csc_entry (indices : list Z) (y : ndarray) (j : Z)
    (i_idx : Z) (z_data : list Z) : result (list Z) :=
  i ← getitem indices i_idx;
  old ← getitem z_data i_idx;
  y_ij ← getitem2 y i j;
  setitem z_data i_idx (old * y_ij).

Definition mul_sd_csc_line (indices indptr : list Z) (y : ndarray) (j : Z)
    (z_data : list Z) : result (list Z) :=
  lo ← getitem indptr j;
  hi ← getitem indptr (j + 1);
  for_each (range lo hi) (mul_sd_csc_entry indices y j) z_data.

Definition mul_sd_csr_entry (indices : list Z) (y : ndarray) (i : Z)
    (j_idx : Z) (z_data : list Z) : result (list Z) :=
  j ← getitem indices j_idx;
  old ← getitem z_data j_idx;
  y_ij ← getitem2 y i j;
  setitem z_data j_idx (old * y_ij).

Definition mul_sd_csr_line (indices indptr : list Z) (y : ndarray) (i : Z)
    (z_data : list Z) : result (list Z) :=
  lo ← getitem indptr i;
  hi ← getitem indptr (i + 1);
  for_each (range lo hi) (mul_sd_csr_entry indices y i) z_data.

(** [x.copy()] when the dtype is already the output's, [x.astype] else. *)
Definition copy_as (x : spmatrix) (out_dtype : dtype) : spmatrix :=
  if bool_decide (sp_dtype x = out_dtype) then x else astype x out_dtype.

(** [MulSD.perform]; [out_dtype] is the dtype of the node's output. *)
Definition MulSD_perform (out_dtype : dtype) (x : spmatrix) (y : dense_value)
    : result spmatrix :=
  match y with
  | DScalar _ v =>
      let z := copy_as x out_dtype in
      Ok (with_data z (map (fun d => d * v) (sp_data z)))
  | DVector _ => Raise NotImplementedError
  | DMatrix y =>
      let '(M, N) := sp_shape x in
      if negb (bool_decide (sp_shape x = nd_shape y)) then Raise AssertionError
      else
        match sp_format x with
        | csc =>
            let z := copy_as x out_dtype in
            z_data ← for_each (range 0 N)
                        (mul_sd_csc_line (sp_indices x) (sp_indptr x) y)
                        (sp_data z);
            Ok (with_data z z_data)
        | csr =>
            let z := copy_as x out_dtype in
            z_data ← for_each (range 0 M)
                        (mul_sd_csr_line (sp_indices x) (sp_indptr x) y)
                        (sp_data z);
            Ok (with_data z z_data)
        end
  end.


(** The maximum of a list of integers, [None] on the empty list. *)
Definition max_list (l : list Z) : option Z :=
  match l with
  | [] => None
  | a :: l' => Some (foldr Z.max a l')
  end.

(** [scipy.sparse.csc_matrix((data, indices, indptr))] with no shape given:
    the library infers the number of columns from the pointer vector and
    the number of rows from the largest index, and refuses when there is
    no index to look at. *)
Definition scipy_csc_inferred (data : vector) (indices indptr : list Z)
    : result spmatrix :=
  match max_list indices with
  | None => Raise (ValueError "unable to infer matrix dimensions" [])
  | Some m =>
      Ok (scipy_compressed csc data indices indptr [m + 1; len indptr - 1])
  end.

(** [SquareDiagonal.perform] *)
Definition SquareDiagonal_perform (diag : vector) : result spmatrix :=
  let N := len (v_data diag) in
  let data := diag in
  let indices := range 0 N in
  let indptr := range 0 (N + 1) in
  scipy_csc_inferred data indices indptr.

(** [x.diagonal()] of the sparse library on a square matrix. *)
Definition scipy_diagonal (x : spmatrix) : vector :=
  Vector (sp_dtype x) (map (fun i => sp_get x i i) (range 0 (fst (sp_shape x)))).

(** [Diag.perform] *)
Definition Diag_perform (x : spmatrix) : result vector :=
  let '(N, M) := sp_shape x in
  if negb (bool_decide (N = M))
  then Raise (ValueError "Diag only apply on square matrix" [])
  else Ok (scipy_diagonal x).

(** [ConstructSparseFromList.perform]: the index list is laid out once per
    column of [values], the values are flattened column by column, and
    column [c] of the result owns the positions [c*rows .. (c+1)*rows-1]. *)
Definition ConstructSparseFromList_perform (out_shape : list Z)
    (values : ndarray) (ilist : list Z) : result spmatrix :=
  let '(rows, cols) := nd_shape values in
  if negb (bool_decide (rows = len ilist)) then Raise AssertionError
  else
    let indptr := map (fun c => c * rows) (range 0 (cols + 1)) in
    let indices := concat (replicate (Z.to_nat cols) ilist) in
    let data := concat (transpose_rows (Z.to_nat cols) (nd_rows values)) in
    Ok (scipy_compressed csc (Vector (nd_dtype values) data) indices indptr
          out_shape).

(** [sp_zeros_like], evaluated: the pointer and shape vectors come out of
    [csm_properties], the pointer vector is zeroed, and [CSM] builds the
    matrix around an empty data and an empty index vector. *)
Definition sp_zeros_like_eval (x : spmatrix) : result spmatrix :=
  let p := CSMProperties_perform x in
  CSM_perform (sp_format x) (Vector (sp_dtype x) []) []
    (map (fun _ => 0) (p_indptr p)) (p_shape p).

(** A function built by [structured_monoid], evaluated: the elementwise
    operator [tensor_op], here the scalar function [f] with the dtype
    [out_dtype] of its result, is applied to the data vector, and [CSM]
    rebuilds the matrix around the input's own pattern. *)
Definition structured_monoid_eval (f : Z -> Z) (out_dtype : dtype)
    (x : spmatrix) : result spmatrix :=
  let p := CSMProperties_perform x in
  CSM_perform (sp_format x)
    (Vector out_dtype (map f (v_data (p_data p))))
    (p_indices p) (p_indptr p) (p_shape p).

(** [StructuredDot.infer_shape] *)
Definition StructuredDot_infer_shape (shapes0 shapes1 : Z * Z) : Z * Z :=
  (fst shapes0, snd shapes1).

(** No line of the matrix stores a position twice. *)
Definition line_distinct (M : spmatrix) : Prop :=
  forall (i : nat) (lo hi : Z) (p q : nat),
    sp_indptr M !! i = Some lo -> sp_indptr M !! S i = Some hi ->
    lo <= Z.of_nat p < hi -> lo <= Z.of_nat q < hi ->
    sp_indices M !! p = sp_indices M !! q -> p = q.

(** ** Comparisons between a sparse matrix and another matrix *)

(** The twelve comparison classes: six relations, each for two sparse
    operands ([SS]) and for a sparse and a dense operand ([SD]). *)
Inductive comparison_op : Type :=
  | EqualSS | EqualSD
  | NotEqualSS | NotEqualSD
  | LessThanSS | LessThanSD
  | GreaterThanSS | GreaterThanSD
  | LessEqualSS | LessEqualSD
  | GreaterEqualSS | GreaterEqualSD.

(** The [comparison] method of each class, on one pair of entries of its
    left and right operand. *)
Definition comparison (op : comparison_op) (x y : Z) : bool :=
  match op with
  | EqualSS | EqualSD => bool_decide (x = y)
  | NotEqualSS | NotEqualSD => bool_decide (x <> y)
  | LessThanSS | LessThanSD => bool_decide (x < y)
  | GreaterThanSS | GreaterThanSD => bool_decide (x > y)
  | LessEqualSS | LessEqualSD => bool_decide (x <= y)
  | GreaterEqualSS | GreaterEqualSD => bool_decide (x >= y)
  end.

(** The application of a comparison operator to a left and a right operand. *)
Inductive comparison_call : Type :=
  | Call (op : comparison_op) (left right : expr).

(** The [helper] that [__ComparisonSwitch(SS, SD, DS)] returns, on two
    arguments that are variables already; the result is the application it
    makes.  (The check of the library's version is left to the
    environment.) *)
Definition __ComparisonSwitch (SS SD DS : comparison_op) (x y : expr)
    : result comparison_call :=
  let x_is_sparse_variable := _is_sparse_variable x in
  let y_is_sparse_variable := _is_sparse_variable y in
  if negb (x_is_sparse_variable || y_is_sparse_variable) then Raise AssertionError
  else if x_is_sparse_variable && y_is_sparse_variable then Ok (Call SS x y)
  else if x_is_sparse_variable && negb y_is_sparse_variable then Ok (Call SD x y)
  else if y_is_sparse_variable && negb x_is_sparse_variable then Ok (Call DS y x)
  else Raise NotImplementedError.

Module Switch.
Definition eq := __ComparisonSwitch EqualSS EqualSD EqualSD.
Definition neq := __ComparisonSwitch NotEqualSS NotEqualSD NotEqualSD.
Definition lt := __ComparisonSwitch LessThanSS LessThanSD GreaterThanSD.
Definition gt := __ComparisonSwitch GreaterThanSS GreaterThanSD LessThanSD.
Definition le := __ComparisonSwitch LessEqualSS LessEqualSD GreaterEqualSD.
Definition ge := __ComparisonSwitch GreaterEqualSS GreaterEqualSD LessEqualSD.
End Switch.

(** A switch computes the relation [rel] between its first and its second
    argument: whichever of the two is sparse, the operator it applies,
    evaluated on an entry [a] of [x] and an entry [b] of [y] in the order
    the call puts them, gives [rel a b]; with no sparse argument the
    switch fails its assertion. *)
Definition computes (sw : expr -> expr -> result comparison_call)
    (rel : Z -> Z -> bool) : Prop :=
  forall x y : expr,
    if _is_sparse_variable x || _is_sparse_variable y then
      (exists op, sw x y = Ok (Call op x y)
                  /\ forall a b, comparison op a b = rel a b) \/
      (exists op, sw x y = Ok (Call op y x)
                  /\ forall a b, comparison op b a = rel a b)
    else sw x y = Raise AssertionError.

(** ** The dense product with a sparse operand: Dot *)

(** An operand of [Dot]: a sparse variable, or a dense one with the static
    shape of its type (an unknown dimension is [None]). *)
Inductive dot_type : Type :=
  | DotSparse (fmt : format)
  | DotDense (static : list (option Z)).

Record dot_operand : Type := {
  d_dtype : dtype;
  d_type : dot_type
}.

Definition dot_ndim (x : dot_operand) : Z :=
  match d_type x with
  | DotSparse _ => 2
  | DotDense static => len static
  end.

Definition dot_is_sparse (x : dot_operand) : bool :=
  match d_type x with DotSparse _ => true | DotDense _ => false end.

(** [shape[:-1]] and [shape[1:]] *)
Definition but_last {A : Type} (l : list A) : list A := take (length l - 1) l.
Definition but_first {A : Type} (l : list A) : list A := drop 1 l.

Section Dot.

Variable upcast : dtype -> dtype -> dtype.

(** The static shape [Dot.make_node] reads for an operand: all unknown for
    a sparse one, the type's own for a dense one, which must be of rank one
    or two. *)
Definition dot_operand_shape (position : string) (x : dot_operand)
    : result (list (option Z)) :=
  match d_type x with
  | DotSparse _ => Ok (replicate (Z.to_nat (dot_ndim x)) None)
  | DotDense static =>
      if negb (bool_decide (dot_ndim x = 1) || bool_decide (dot_ndim x = 2))
      then Raise (TypeError ("Input " +:+ position +:+ " must have ndim of 1 or 2"))
      else Ok static
  end.

(** [Dot.make_node]: the dtype and the static shape of the output. *)
Definition Dot_make_node (x y : dot_operand) : result (dtype * list (option Z)) :=
  let dtype_out := upcast (d_dtype x) (d_dtype y) in
  if negb (dot_is_sparse x) && negb (dot_is_sparse y)
  then Raise (TypeError "Sparse dot product should have at least one sparse variable as inputs")
  else
    shape_x ← dot_operand_shape "0 (0-indexed)" x;
    shape_y ← dot_operand_shape "1 (1-indexed)" y;
    if bool_decide (len shape_y = 2)
    then Ok (dtype_out, but_last shape_x ++ but_first shape_y)
    else if bool_decide (len shape_y = 1)
    then Ok (dtype_out, but_last shape_x)
    else Raise (Exception "shape_out is not bound" []).

End Dot.

(** [Dot.infer_shape], on the shapes of the two inputs of the node. *)
Definition Dot_infer_shape (x y : dot_operand) (xshp yshp : list Z)
    : result (list Z) :=
  if bool_decide (dot_ndim x = 2) && bool_decide (dot_ndim y = 2)
  then a ← getitem xshp 0; b ← getitem yshp 1; Ok [a; b]
  else if bool_decide (dot_ndim x = 1) && bool_decide (dot_ndim y = 2)
  then b ← getitem yshp 1; Ok [b]
  else if bool_decide (dot_ndim x = 2) && bool_decide (dot_ndim y = 1)
  then a ← getitem xshp 0; Ok [a]
  else if bool_decide (dot_ndim x = 1) && bool_decide (dot_ndim y = 1)
  then Ok []
  else Raise NotImplementedError.

(** A shape agrees with a static shape: same rank, and every dimension the
    static shape knows has that very value. *)
Definition agrees (static : list (option Z)) (shp : list Z) : Prop :=
  Forall2 (fun s n => forall k, s = Some k -> n = k) static shp.

Definition dot_static (x : dot_operand) : list (option Z) :=
  match d_type x with
  | DotSparse _ => [None; None]
  | DotDense static => static
  end.

(** ** Compiling a function: [pytensor.function] *)

(** A key of a Python dict: a string, or an object of another type. *)
Inductive dict_key : Type :=
  | StrKey (s : string)
  | OtherKey.

(** The [outputs] argument: [None], one variable, a list, or a dict. *)
Inductive outputs_arg : Type :=
  | OutputsNone
  | OutputsVariable (v : expr)
  | OutputsList (l : list expr)
  | OutputsDict (d : list (dict_key * expr)).

(** An entry of [inputs]: a variable (or [In] instance), or a list or tuple
    in the old style. *)
Inductive input_item : Type :=
  | InputVariable (v : expr)
  | InputSequence (items : list expr).

(** The [inputs] argument: a list or tuple, or an object of another type. *)
Inductive inputs_arg : Type :=
  | InputsSequence (l : list input_item)
  | InputsOther.

(** The [profile] argument: [None], a boolean, or a [ProfileStats]. *)
Inductive profile_arg : Type :=
  | ProfileNone
  | ProfileBool (b : bool)
  | ProfileStats.

Definition replacements : Type := list (expr * expr).

(** The call [function] ends with.  The two compilers live in other
    modules; of their arguments, the ones [function] computes are kept
    (the others are handed on as they came). *)
Inductive compile_call : Type :=
  | orig_function (inputs : list input_item) (outputs : outputs_arg)
      (name : option string)
  | pfunc (params : list input_item) (outputs : outputs_arg)
      (updates givens : replacements) (name : option string)
      (profile : profile_arg) (output_keys : option (list string)).

Definition str_le (a b : string) : Prop := String.leb a b = true.

#[global] Instance str_le_dec : RelDecision str_le.
Proof. intros a b. unfold str_le. apply _. Defined.

(** [sorted(keys)] on strings. *)
Definition sorted (keys : list string) : list string := merge_sort str_le keys.

(** [d[key]] *)
Fixpoint dict_getitem (d : list (dict_key * expr)) (key : string) : result expr :=
  match d with
  | [] => Raise (Exception "KeyError" [])
  | (StrKey s, v) :: d' => if bool_decide (s = key) then Ok v else dict_getitem d' key
  | (OtherKey, _) :: d' => dict_getitem d' key
  end.

Definition str_keys (d : list (dict_key * expr)) : list string :=
  omap (fun kv => match fst kv with StrKey s => Some s | OtherKey => None end) d.

Definition is_str (k : dict_key) : bool :=
  match k with StrKey _ => true | OtherKey => false end.

Definition is_sequence (i : input_item) : bool :=
  match i with InputSequence _ => true | InputVariable _ => false end.

(** [bool(profile)] *)
Definition profile_bool (p : profile_arg) : bool :=
  match p with
  | ProfileNone => false
  | ProfileBool b => b
  | ProfileStats => true
  end.

(** [bool(updates)], [bool(givens)] *)
Definition nonempty {A : Type} (l : list A) : bool :=
  match l with [] => false | _ => true end.

Section Function.

(** The name the inspection of the call stack gives a function that was
    given none, if it gives one. *)
Variable stack_name : option string.

(** [pytensor.function] *)
Definition function (inputs : inputs_arg) (outputs : outputs_arg)
    (updates givens : option replacements) (name : option string)
    (profile : profile_arg) : result compile_call :=
  '(output_keys, outputs) ←
    match outputs with
    | OutputsDict d =>
        if negb (forallb (fun kv => is_str (fst kv)) d) then Raise AssertionError
        else
          let output_keys := sorted (str_keys d) in
          outputs ← mapM (dict_getitem d) output_keys;
          Ok (Some output_keys, OutputsList outputs)
    | _ => Ok (None, outputs)
    end;
  let name := match name with None => stack_name | Some _ => name end in
  let updates := match updates with None => [] | Some u => u end in
  let givens := match givens with None => [] | Some g => g end in
  match inputs with
  | InputsOther =>
      Raise (Exception "Input variables of an PyTensor function should be contained in a list, even when there is a single input." [])
  | InputsSequence inputs =>
      let uses_tuple := existsb is_sequence inputs in
      let uses_updates := nonempty updates in
      let uses_givens := nonempty givens in
      if uses_tuple then
        if profile_bool profile then Raise NotImplementedError
        else if uses_updates || uses_givens then Raise NotImplementedError
        else Ok (orig_function inputs outputs name)
      else Ok (pfunc inputs outputs updates givens name profile output_keys)
  end.

End Function.

(** ** Concrete inputs *)




(** A csr variable of dtype float64, a scalar gradient, and the output
    gradients of an extraction whose data gradient is disconnected. *)
Definition x_csr : expr := Var "x" (SparseTensor csr Float64).

Definition gz_scalar : expr := Var "gz" (TensorType Float64 0).

(** A promotion rule for the examples, which only ever promote a dtype with
    itself ([upcast(a, a) == a]). *)
Definition upcast_same (a b : dtype) : dtype := a.

Definition g_disconnected : list expr :=
  [Fresh DisconnectedType; Var "g_indices" (TensorType Int32 1);
   Var "g_indptr" (TensorType Int32 1); Var "g_shape" (TensorType Int32 1)].

(** Two sparse inputs of a stack, the second integer-typed, and a sparse
    output gradient. *)
Definition stack_inputs : list expr :=
  [x_csr; Var "y" (SparseTensor csc Int32)].

Definition gz_sparse : expr := Var "gz" (SparseTensor csc Float64).

(** A 2x3 csr matrix, a gradient of the same shape with another pattern
    (and a repeated position), and dense operands of a structured product. *)
Definition X_2x3 : spmatrix :=
  SpMatrix csr Float64 [10; 20; 30] [0; 2; 1] [0; 2; 3] (2, 3).


Definition B_3x2 : ndarray :=
  NDArray Float64 (3, 2) [[1; 2]; [3; 4]; [5; 6]].

Definition GA_2x2 : ndarray :=
  NDArray Float64 (2, 2) [[1; 1]; [2; 3]].

(** A 2x3 csc matrix; scale vectors for two rows and for three columns; a
    dense 2x3 matrix; a second csr matrix with the pattern of [X_2x3]; a
    data gradient for the three stored entries of [X_2x3]. *)
Definition X_csc_2x3 : spmatrix :=
  SpMatrix csc Float64 [10; 20; 30] [0; 1; 1] [0; 1; 2; 3] (2, 3).

Definition s_rows : vector := Vector Float64 [2; 3].

Definition s_cols : vector := Vector Float64 [2; 3; 5].

Definition Y_2x3 : ndarray :=
  NDArray Float64 (2, 3) [[1; 2; 3]; [4; 5; 6]].


Definition g_data_3 : vector := Vector Float64 [1; 2; 3].

(** An elementwise operation that keeps zero. *)
Definition square (z : Z) : Z := z * z.

(** A diagonal; an index list that names row 0 twice; a library product
    that always answers with the 2x2 array [GA_2x2]. *)
Definition diag_3 : vector := Vector Float64 [4; 5; 6].

Definition ilist_3 : list Z := [0; 2; 0].

Definition scipy_mul_GA (a : spmatrix) (b : matrix_value) : product :=
  ProdArray2 GA_2x2.

(** A sparse operand and a dense one whose type knows its first dimension. *)
Definition dot_x : dot_operand := {| d_dtype := Float64; d_type := DotSparse csr |}.

Definition dot_y : dot_operand :=
  {| d_dtype := Float64; d_type := DotDense [Some 3; None] |}.

(** A dict of outputs whose keys were inserted in the order b, a. *)
Definition outputs_dict : list (dict_key * expr) :=
  [(StrKey "b", x_csr); (StrKey "a", gz_scalar)].

(** * Verification *)

(** ** Basic facts about the primitives *)

Lemma to_int32_id (z : Z) : int32_range z -> to_int32 z = z.
Proof.
  unfold int32_range, to_int32. intros Hz.
  rewrite Z.mod_small by lia. lia.
Qed.

Lemma asarray_int32_id (l : list Z) :
  Forall int32_range l -> asarray_int32 l = l.
Proof.
  unfold asarray_int32. induction 1 as [|z l Hz _ IH]; simpl.
  - reflexivity.
  - now rewrite to_int32_id, IH.
Qed.


(** ** Loops over the lines of a compressed matrix *)

Lemma range_nil (lo hi : Z) : hi <= lo -> range lo hi = [].
Proof. intros H. unfold range, seqZ. replace (Z.to_nat (hi - lo)) with 0%nat by lia. reflexivity. Qed.

Lemma range_cons (lo hi : Z) : lo < hi -> range lo hi = lo :: range (lo + 1) hi.
Proof.
  intros H. unfold range. rewrite seqZ_cons by lia.
  f_equal. f_equal; lia.
Qed.

Lemma for_each_range_inv {S : Type} (body : Z -> S -> result S)
    (P : Z -> S -> Prop) (lo hi : Z) (s : S) :
  lo <= hi ->
  P lo s ->
  (forall i s, lo <= i < hi -> P i s -> exists s', body i s = Ok s' /\ P (i + 1) s') ->
  exists s', for_each (range lo hi) body s = Ok s' /\ P hi s'.
Proof.
  intros Hle. remember (Z.to_nat (hi - lo)) as n eqn:Hn.
  revert lo s Hle Hn. induction n as [|n IH]; intros lo s Hle Hn H0 Hstep.
  - assert (hi = lo) by lia. subst hi. rewrite range_nil by lia. simpl. eauto.
  - rewrite range_cons by lia. simpl.
    destruct (Hstep lo s) as (s1 & Hb & H1); [lia|exact H0|].
    rewrite Hb. simpl. apply IH; [lia|lia|exact H1|].
    intros i s2 Hi. apply Hstep. lia.
Qed.

Lemma getitem_ok {A : Type} (l : list A) (i : Z) (a : A) :
  0 <= i -> l !! Z.to_nat i = Some a -> getitem l i = Ok a.
Proof.
  intros Hi Hl. unfold getitem, norm_index.
  assert (Z.to_nat i < length l)%nat by (eapply lookup_lt_Some; eauto).
  rewrite bool_decide_eq_true_2 by (unfold len; lia). now rewrite Hl.
Qed.

Lemma setitem_ok {A : Type} (l : list A) (i : Z) (v : A) :
  0 <= i < len l -> setitem l i v = Ok (<[Z.to_nat i := v]> l).
Proof.
  intros Hi. unfold setitem, norm_index.
  now rewrite bool_decide_eq_true_2 by exact Hi.
Qed.

Lemma nondecreasing_lookup (l : list Z) (a b : nat) (x y : Z) :
  nondecreasing l -> l !! a = Some x -> l !! b = Some y -> (a <= b)%nat -> x <= y.
Proof.
  revert a b x y. induction l as [|h t IH]; intros a b x y Hl Ha Hb Hab.
  - discriminate.
  - destruct a as [|a], b as [|b]; simpl in *.
    + assert (x = y) by congruence. lia.
    + injection Ha as ->. destruct t as [|h' t']; [discriminate|].
      destruct Hl as [Hh Ht].
      transitivity h'; [exact Hh|].
      apply (IH 0%nat b h' y Ht); [reflexivity|exact Hb|lia].
    + lia.
    + destruct t as [|h' t']; [discriminate|].
      apply (IH a b x y); [apply Hl|exact Ha|exact Hb|lia].
Qed.

Lemma fill_line (entry : Z -> list Z -> result (list Z)) (val : Z -> Z)
    (lo hi : Z) (g : list Z) :
  0 <= lo -> lo <= hi -> hi <= len g ->
  (forall p g', lo <= p < hi -> length g' = length g ->
     entry p g' = Ok (<[Z.to_nat p := val p]> g')) ->
  exists g',
    for_each (range lo hi) entry g = Ok g' /\
    length g' = length g /\
    (forall p, lo <= p < hi -> g' !! Z.to_nat p = Some (val p)) /\
    (forall q : nat, ~ (lo <= Z.of_nat q < hi) -> g' !! q = g !! q).
Proof.
  intros Hlo Hle Hhi Hentry.
  destruct (for_each_range_inv entry
    (fun p g' => length g' = length g /\
       (forall q, lo <= q < p -> g' !! Z.to_nat q = Some (val q)) /\
       (forall q : nat, ~ (lo <= Z.of_nat q < p) -> g' !! q = g !! q))
    lo hi g Hle) as (g' & Hrun & Hlen & Hin & Hout).
  - split; [reflexivity|]. split; [intros q Hq; lia|reflexivity].
  - intros p g1 Hp (Hlen & Hin & Hout).
    exists (<[Z.to_nat p := val p]> g1). split; [apply Hentry; auto|].
    split; [now rewrite length_insert|]. split.
    + intros q Hq. destruct (decide (q = p)) as [->|Hne].
      * apply list_lookup_insert_eq. unfold len in Hhi. lia.
      * rewrite list_lookup_insert_ne by lia. apply Hin. lia.
    + intros q Hq. rewrite list_lookup_insert_ne by lia. apply Hout. lia.
  - eauto.
Qed.

Lemma indptr_line (indptr : list Z) (n nnz i : Z) :
  len indptr = n + 1 -> nondecreasing indptr ->
  indptr !! 0%nat = Some 0 -> last indptr = Some nnz ->
  0 <= i < n ->
  exists lo hi,
    indptr !! Z.to_nat i = Some lo /\ indptr !! Z.to_nat (i + 1) = Some hi /\
    0 <= lo /\ lo <= hi /\ hi <= nnz.
Proof.
  intros Hlen Hmono H0 Hlast Hi. unfold len in Hlen.
  destruct (lookup_lt_is_Some_2 indptr (Z.to_nat i)) as (lo & Hlo); [lia|].
  destruct (lookup_lt_is_Some_2 indptr (Z.to_nat (i + 1))) as (hi & Hhi); [lia|].
  rewrite last_lookup in Hlast.
  exists lo, hi. repeat split; try assumption.
  - apply (nondecreasing_lookup indptr 0 (Z.to_nat i) 0 lo); auto. lia.
  - apply (nondecreasing_lookup indptr (Z.to_nat i) (Z.to_nat (i + 1)) lo hi);
      auto. lia.
  - apply (nondecreasing_lookup indptr (Z.to_nat (i + 1))
             (Init.Nat.pred (length indptr)) hi nnz); auto. lia.
Qed.

Lemma indptr_lines_ordered (indptr : list Z) (i i' : Z) (hi' lo : Z) :
  nondecreasing indptr -> 0 <= i' < i ->
  indptr !! Z.to_nat (i' + 1) = Some hi' -> indptr !! Z.to_nat i = Some lo ->
  hi' <= lo.
Proof.
  intros Hmono Hi Hhi Hlo.
  apply (nondecreasing_lookup indptr (Z.to_nat (i' + 1)) (Z.to_nat i)); auto.
  lia.
Qed.


(** ** C1: extraction followed by construction *)




(** ** C7: validation in construction *)


Lemma X_2x3_wf : sp_wf X_2x3.
Proof.
  constructor; simpl; try lia; try reflexivity.
  repeat constructor; unfold minor_dim; simpl; lia.
Defined.


(** ** The gradient operators of the structured product, line by line *)


Lemma int32_parts (A : spmatrix) :
  fits_int32 A ->
  CSMProperties_perform A
  = CsmParts (Vector (sp_dtype A) (sp_data A)) (sp_indices A) (sp_indptr A)
      [fst (sp_shape A); snd (sp_shape A)].
Proof.
  intros (Hi & Hp & Hr & Hc). unfold CSMProperties_perform.
  rewrite (asarray_int32_id _ Hi), (asarray_int32_id _ Hp).
  unfold asarray_int32. simpl. now rewrite !to_int32_id.
Qed.







Lemma np_zeros_nonneg (n : Z) :
  0 <= n -> np_zeros n = Ok (replicate (Z.to_nat n) 0).
Proof.
  intros H. unfold np_zeros. now rewrite bool_decide_eq_false_2 by lia.
Qed.

Lemma np_zeros_len {A : Type} (l : list A) :
  np_zeros (len l) = Ok (replicate (length l) 0).
Proof.
  unfold np_zeros. rewrite bool_decide_eq_false_2 by (unfold len; lia).
  unfold len. now rewrite Nat2Z.id.
Qed.




(** ** C2: the structured gradient of the structured product *)


Example structured_dot_grad_2x3 :
  structured_dot_grad_eval X_2x3 B_3x2 GA_2x2
  = Ok (SpMatrix csr Float64 [3; 11; 18] [0; 2; 1] [0; 2; 3] (2, 3))
  /\ dense_grad_A GA_2x2 B_3x2 = [[3; 7; 11]; [8; 18; 28]].
Proof. split; reflexivity. Qed.


(** ** Scatter, gather and clear in the gradient of construction *)

Lemma sumZ_app (l1 l2 : list Z) : sumZ (l1 ++ l2) = sumZ l1 + sumZ l2.
Proof. induction l1; simpl; lia. Qed.

Lemma range_snoc (lo p : Z) : lo <= p -> range lo (p + 1) = range lo p ++ [p].
Proof.
  intros H. unfold range.
  replace (p + 1 - lo) with ((p - lo) + 1) by lia.
  rewrite seqZ_app by lia. f_equal.
  replace (lo + (p - lo)) with p by lia. reflexivity.
Qed.

Lemma stored_sum_empty (indices data : list Z) (lo c : Z) :
  stored_sum indices data lo lo c = 0.
Proof. unfold stored_sum. now rewrite range_nil. Qed.

Lemma stored_sum_snoc (indices data : list Z) (lo p c : Z) :
  lo <= p ->
  stored_sum indices data lo (p + 1) c
  = stored_sum indices data lo p c + stored_term indices data c p.
Proof.
  intros H. unfold stored_sum. rewrite range_snoc by exact H.
  rewrite List.map_app, sumZ_app. simpl. lia.
Qed.

Lemma stored_sum_absent (indices data : list Z) (lo hi c : Z) :
  (forall q, lo <= q < hi -> indices !! Z.to_nat q <> Some c) ->
  stored_sum indices data lo hi c = 0.
Proof.
  intros Habs. unfold stored_sum, range.
  assert (Hall : Forall (fun q => lo <= q < hi) (seqZ lo (hi - lo))).
  { apply Forall_forall. intros q Hq. apply elem_of_seqZ in Hq. lia. }
  induction Hall as [|q l Hq _ IH]; simpl; [reflexivity|].
  rewrite IH. unfold stored_term.
  rewrite bool_decide_eq_false_2 by (apply Habs; exact Hq). reflexivity.
Qed.

Lemma scatter_line (g_data g_indices : list Z) (sp_dim lo hi : Z) :
  length g_data = length g_indices ->
  Forall (fun c => 0 <= c < sp_dim) g_indices ->
  0 <= lo -> lo <= hi -> hi <= len g_indices ->
  exists g_row,
    for_each (range lo hi) (csm_grad_scatter g_data g_indices)
      (replicate (Z.to_nat sp_dim) 0) = Ok g_row /\
    length g_row = Z.to_nat sp_dim /\
    forall c, 0 <= c < sp_dim ->
      g_row !! Z.to_nat c = Some (stored_sum g_indices g_data lo hi c).
Proof.
  intros Hdata Hidx Hlo Hle Hhi.
  apply (for_each_range_inv _
    (fun p g_row => length g_row = Z.to_nat sp_dim /\
       forall c, 0 <= c < sp_dim ->
         g_row !! Z.to_nat c = Some (stored_sum g_indices g_data lo p c)));
    [exact Hle| |].
  - split; [apply length_replicate|]. intros c Hc.
    rewrite stored_sum_empty. apply lookup_replicate_2. lia.
  - intros p g_row Hp (Hlen & Hrow). unfold len in Hhi.
    destruct (lookup_lt_is_Some_2 g_indices (Z.to_nat p)) as (k & Hk); [lia|].
    destruct (lookup_lt_is_Some_2 g_data (Z.to_nat p)) as (v & Hv); [lia|].
    pose proof (proj1 (Forall_lookup _ _) Hidx _ _ Hk) as Hkr. simpl in Hkr.
    unfold csm_grad_scatter.
    rewrite (getitem_ok g_indices p k) by (auto; lia). simpl.
    rewrite (getitem_ok g_row k _ (proj1 Hkr) (Hrow k Hkr)). simpl.
    rewrite (getitem_ok g_data p v) by (auto; lia). simpl.
    rewrite setitem_ok by (unfold len; lia).
    eexists. split; [reflexivity|].
    split; [now rewrite length_insert|].
    intros c Hc. rewrite stored_sum_snoc by lia. unfold stored_term.
    rewrite Hk, Hv. simpl.
    destruct (decide (c = k)) as [->|Hne].
    + rewrite list_lookup_insert_eq by lia.
      now rewrite bool_decide_eq_true_2.
    + rewrite list_lookup_insert_ne by lia.
      rewrite bool_decide_eq_false_2 by congruence.
      rewrite Hrow by exact Hc. f_equal. lia.
Qed.

Lemma clear_line (g_data g_indices : list Z) (sp_dim lo hi : Z)
    (g_row : list Z) :
  Forall (fun c => 0 <= c < sp_dim) g_indices ->
  0 <= lo -> lo <= hi -> hi <= len g_indices ->
  length g_row = Z.to_nat sp_dim ->
  (forall c, 0 <= c < sp_dim ->
     g_row !! Z.to_nat c = Some (stored_sum g_indices g_data lo hi c)) ->
  for_each (range lo hi) (csm_grad_clear g_indices) g_row
  = Ok (replicate (Z.to_nat sp_dim) 0).
Proof.
  intros Hidx Hlo Hle Hhi Hlen Hrow.
  destruct (for_each_range_inv (csm_grad_clear g_indices)
    (fun p row => length row = Z.to_nat sp_dim /\
       forall c, 0 <= c < sp_dim ->
         row !! Z.to_nat c = Some 0 \/
         (row !! Z.to_nat c = Some (stored_sum g_indices g_data lo hi c) /\
          forall q, lo <= q < p -> g_indices !! Z.to_nat q <> Some c))
    lo hi g_row Hle) as (row & Hrun & Hlen' & Hfin).
  - split; [exact Hlen|]. intros c Hc. right. split; [auto|]. intros; lia.
  - intros p row Hp (Hl & Hinv). unfold len in Hhi.
    destruct (lookup_lt_is_Some_2 g_indices (Z.to_nat p)) as (k & Hk); [lia|].
    pose proof (proj1 (Forall_lookup _ _) Hidx _ _ Hk) as Hkr. simpl in Hkr.
    unfold csm_grad_clear.
    rewrite (getitem_ok g_indices p k) by (auto; lia). simpl.
    rewrite setitem_ok by (unfold len; lia).
    eexists. split; [reflexivity|].
    split; [now rewrite length_insert|].
    intros c Hc. destruct (decide (c = k)) as [->|Hne].
    + left. apply list_lookup_insert_eq. lia.
    + rewrite list_lookup_insert_ne by lia.
      destruct (Hinv c Hc) as [H0|[Hs Hq]]; [left; exact H0|].
      right. split; [exact Hs|].
      intros q Hq'. destruct (decide (q = p)) as [->|Hqp].
      * rewrite Hk. congruence.
      * apply Hq. lia.
  - rewrite Hrun. f_equal. apply list_eq. intros n.
    destruct (decide (n < Z.to_nat sp_dim)%nat) as [Hn|Hn].
    + rewrite lookup_replicate_2 by exact Hn.
      destruct (Hfin (Z.of_nat n)) as [H0|[Hs Hq]]; [lia| |];
        rewrite Nat2Z.id in *; [exact H0|].
      rewrite Hs. f_equal. apply stored_sum_absent. exact Hq.
    + rewrite lookup_ge_None_2 by lia.
      symmetry. apply lookup_replicate_None. lia.
Qed.


Lemma gather_entry_ok (x_indices g_row : list Z) (sp_dim : Z) (p : Z)
    (gout : list Z) :
  Forall (fun c => 0 <= c < sp_dim) x_indices ->
  length g_row = Z.to_nat sp_dim ->
  0 <= p < len x_indices -> length gout = length x_indices ->
  csm_grad_gather x_indices g_row p gout
  = Ok (<[Z.to_nat p :=
          default 0 (g_row !! Z.to_nat (default 0 (x_indices !! Z.to_nat p)))]>
        gout).
Proof.
  intros Hidx Hrow Hp Hlen. unfold csm_grad_gather, len in *.
  destruct (lookup_lt_is_Some_2 x_indices (Z.to_nat p)) as (k & Hk); [lia|].
  pose proof (proj1 (Forall_lookup _ _) Hidx _ _ Hk) as Hkr. simpl in Hkr.
  destruct (lookup_lt_is_Some_2 g_row (Z.to_nat k)) as (v & Hv); [lia|].
  rewrite (getitem_ok x_indices p k) by (auto; lia). simpl.
  rewrite (getitem_ok g_row k v) by (auto; lia). simpl.
  rewrite setitem_ok by (unfold len; lia).
  rewrite Hk. simpl. now rewrite Hv.
Qed.

Lemma csm_grad_line_ok (X G : spmatrix) (i : Z) (gout : list Z) :
  sp_wf X -> sp_wf G ->
  sp_format G = sp_format X -> sp_shape G = sp_shape X ->
  0 <= i < major_dim X ->
  length gout = length (sp_indices X) ->
  exists x_lo x_hi g_lo g_hi gout',
    sp_indptr X !! Z.to_nat i = Some x_lo /\
    sp_indptr X !! Z.to_nat (i + 1) = Some x_hi /\
    sp_indptr G !! Z.to_nat i = Some g_lo /\
    sp_indptr G !! Z.to_nat (i + 1) = Some g_hi /\
    csm_grad_line (sp_indices X) (sp_indptr X) (sp_data G) (sp_indices G)
      (sp_indptr G) i (replicate (Z.to_nat (minor_dim X)) 0, gout)
    = Ok (replicate (Z.to_nat (minor_dim X)) 0, gout') /\
    length gout' = length gout /\
    (forall p c, x_lo <= p < x_hi -> sp_indices X !! Z.to_nat p = Some c ->
       gout' !! Z.to_nat p
       = Some (stored_sum (sp_indices G) (sp_data G) g_lo g_hi c)) /\
    (forall q : nat, ~ (x_lo <= Z.of_nat q < x_hi) -> gout' !! q = gout !! q).
Proof.
  intros HX HG Hfmt Hshape Hi Hgout.
  assert (Hmaj : major_dim G = major_dim X)
    by (unfold major_dim; now rewrite Hfmt, Hshape).
  assert (Hmin : minor_dim G = minor_dim X)
    by (unfold minor_dim; now rewrite Hfmt, Hshape).
  destruct HX as [_ _ HXd HXl HX0 HXlast HXmono HXminor].
  destruct HG as [_ _ HGd HGl HG0 HGlast HGmono HGminor].
  rewrite Hmaj in HGl. rewrite Hmin in HGminor.
  destruct (indptr_line _ _ _ i HXl HXmono HX0 HXlast Hi)
    as (x_lo & x_hi & Hxlo & Hxhi & Hx0 & Hxle & Hxnnz).
  destruct (indptr_line _ _ _ i HGl HGmono HG0 HGlast Hi)
    as (g_lo & g_hi & Hglo & Hghi & Hg0 & Hgle & Hgnnz).
  destruct (scatter_line (sp_data G) (sp_indices G) (minor_dim X) g_lo g_hi
              HGd HGminor Hg0 Hgle Hgnnz) as (g_row & Hsc & Hrl & Hrow).
  destruct (fill_line (csm_grad_gather (sp_indices X) g_row)
              (fun p => default 0
                 (g_row !! Z.to_nat (default 0 (sp_indices X !! Z.to_nat p))))
              x_lo x_hi gout) as (gout' & Hga & Hgl & Hin & Hout);
    [exact Hx0|exact Hxle|unfold len in *; lia| |].
  { intros p g' Hp Hg'.
    apply (gather_entry_ok _ _ (minor_dim X)); auto; unfold len in *; lia. }
  exists x_lo, x_hi, g_lo, g_hi, gout'.
  repeat split; try assumption.
  - unfold csm_grad_line.
    rewrite (getitem_ok _ i g_lo) by (auto; lia). simpl.
    rewrite (getitem_ok _ (i + 1) g_hi) by (auto; lia). simpl.
    rewrite Hsc. simpl.
    rewrite (getitem_ok _ i x_lo) by (auto; lia). simpl.
    rewrite (getitem_ok _ (i + 1) x_hi) by (auto; lia). simpl.
    rewrite Hga. simpl.
    rewrite (clear_line (sp_data G) (sp_indices G) (minor_dim X) g_lo g_hi
               g_row HGminor Hg0 Hgle Hgnnz Hrl Hrow).
    reflexivity.
  - intros p c Hp Hc. rewrite (Hin p Hp), Hc. simpl.
    pose proof (proj1 (Forall_lookup _ _) HXminor _ _ Hc) as Hcr. simpl in Hcr.
    now rewrite (Hrow c Hcr).
Qed.

Lemma csm_grad_lines_ok (X G : spmatrix) :
  sp_wf X -> sp_wf G ->
  sp_format G = sp_format X -> sp_shape G = sp_shape X ->
  exists gout,
    for_each (range 0 (len (sp_indptr X) - 1))
      (csm_grad_line (sp_indices X) (sp_indptr X) (sp_data G) (sp_indices G)
         (sp_indptr G))
      (replicate (Z.to_nat (minor_dim X)) 0,
       replicate (length (sp_data X)) 0)
    = Ok (replicate (Z.to_nat (minor_dim X)) 0, gout) /\
    length gout = length (sp_data X) /\
    forall i x_lo x_hi p c, 0 <= i ->
      sp_indptr X !! Z.to_nat i = Some x_lo ->
      sp_indptr X !! Z.to_nat (i + 1) = Some x_hi ->
      x_lo <= p < x_hi -> sp_indices X !! Z.to_nat p = Some c ->
      gout !! Z.to_nat p
      = Some (stored_sum (sp_indices G) (sp_data G)
                (default 0 (sp_indptr G !! Z.to_nat i))
                (default 0 (sp_indptr G !! Z.to_nat (i + 1))) c).
Proof.
  intros HX HG Hfmt Hshape.
  pose proof (wf_data X HX) as HXd.
  pose proof (wf_ptr_len X HX) as HXl.
  pose proof (wf_ptr_mono X HX) as HXmono.
  pose proof (wf_ptr_first X HX) as HX0.
  assert (Hmaj : 0 <= major_dim X).
  { destruct HX. unfold major_dim. destruct (sp_format X); assumption. }
  replace (len (sp_indptr X) - 1) with (major_dim X) by lia.
  destruct (for_each_range_inv
    (csm_grad_line (sp_indices X) (sp_indptr X) (sp_data G) (sp_indices G)
       (sp_indptr G))
    (fun i st =>
       fst st = replicate (Z.to_nat (minor_dim X)) 0 /\
       length (snd st) = length (sp_indices X) /\
       forall i' x_lo x_hi p c, 0 <= i' < i ->
         sp_indptr X !! Z.to_nat i' = Some x_lo ->
         sp_indptr X !! Z.to_nat (i' + 1) = Some x_hi ->
         x_lo <= p < x_hi -> sp_indices X !! Z.to_nat p = Some c ->
         snd st !! Z.to_nat p
         = Some (stored_sum (sp_indices G) (sp_data G)
                   (default 0 (sp_indptr G !! Z.to_nat i'))
                   (default 0 (sp_indptr G !! Z.to_nat (i' + 1))) c))
    0 (major_dim X)
    (replicate (Z.to_nat (minor_dim X)) 0, replicate (length (sp_data X)) 0)
    Hmaj) as ([g_row gout] & Hrun & Hrow & Hlen & Hval).
  - simpl. split; [reflexivity|]. split; [now rewrite length_replicate|].
    intros; lia.
  - intros i [g_row gout] Hi (Hrow & Hlen & Hdone). simpl in *. subst g_row.
    destruct (csm_grad_line_ok X G i gout HX HG Hfmt Hshape Hi Hlen)
      as (x_lo & x_hi & g_lo & g_hi & gout' & Hxlo & Hxhi & Hglo & Hghi
          & Hline & Hlen' & Hin & Hout).
    exists (replicate (Z.to_nat (minor_dim X)) 0, gout').
    split; [exact Hline|]. simpl. split; [reflexivity|].
    split; [congruence|].
    intros i' x_lo' x_hi' p c Hi' Hxlo' Hxhi' Hp Hc.
    destruct (decide (i' = i)) as [->|Hne].
    + assert (x_lo' = x_lo) by congruence. assert (x_hi' = x_hi) by congruence.
      subst. rewrite Hglo, Hghi. simpl. apply Hin; assumption.
    + assert (x_hi' <= x_lo)
        by (apply (indptr_lines_ordered (sp_indptr X) i i' x_hi' x_lo);
            auto; lia).
      assert (0 <= x_lo').
      { apply (nondecreasing_lookup (sp_indptr X) 0 (Z.to_nat i') 0 x_lo');
          auto. lia. }
      rewrite Hout by lia. apply (Hdone i' x_lo' x_hi'); auto. lia.
  - simpl in *. subst g_row. exists gout.
    split; [exact Hrun|]. split; [congruence|].
    intros i x_lo x_hi p c Hi Hxlo Hxhi Hp Hc.
    apply (Hval i x_lo x_hi); auto.
    apply lookup_lt_Some in Hxhi. unfold len in HXl. lia.
Qed.

Lemma csm_grad_sp_dim (X : spmatrix) :
  sp_wf X ->
  (if bool_decide (len (sp_indptr X) - 1 = fst (sp_shape X))
   then snd (sp_shape X) else fst (sp_shape X)) = minor_dim X.
Proof.
  intros HX. pose proof (wf_ptr_len X HX) as Hl.
  unfold major_dim, minor_dim in *.
  destruct (sp_format X); case_bool_decide; lia.
Qed.

(** ** C3: the gradient of construction *)


(** The gradient stores (0,2) twice and (0,0) once in line 0, and (1,0) in
    line 1; the forward pattern stores (0,0), (0,2) and (1,1). *)
Example CSMGrad_2x3 :
  CSMGrad_perform (Vector Float64 [10; 20; 30]) [0; 2; 1] [0; 2; 3] [2; 3]
    (Vector Float64 [1; 2; 3; 5]) [2; 0; 2; 0] [0; 3; 4] [2; 3]
  = Ok (Vector Float64 [2; 4; 0]).
Proof. reflexivity. Qed.


(** ** C8: the shape check of the structured product *)

(** C8: [StructuredDot.perform] raises a [ValueError] carrying the shapes of
    both operands, and stores no output, when the column count of the left
    operand differs from the row count of the right one; when the two
    agree, whatever the library product returns, it raises no [ValueError]. *)
Theorem StructuredDot_perform_shape_check
    (scipy_mul : spmatrix -> matrix_value -> product)
    (out_sparse : bool) (a : spmatrix) (b : matrix_value) :
  (snd (sp_shape a) <> fst (value_shape b) ->
     StructuredDot_perform scipy_mul out_sparse a b
     = Raise (ValueError "shape mismatch in StructuredDot.perform"
                [[fst (sp_shape a); snd (sp_shape a)];
                 [fst (value_shape b); snd (value_shape b)]]))
  /\
  (snd (sp_shape a) = fst (value_shape b) ->
     forall msg args,
       StructuredDot_perform scipy_mul out_sparse a b
       <> Raise (ValueError msg args)).
Proof.
  unfold StructuredDot_perform. split.
  - intros Hne. rewrite (bool_decide_eq_false_2 _ Hne). reflexivity.
  - intros Heq msg args. rewrite (bool_decide_eq_true_2 _ Heq). simpl.
    destruct out_sparse, (scipy_mul a b); try discriminate;
      unfold store_dense;
      repeat (case_bool_decide; simpl); discriminate.
Qed.

(** ** C5 and C10: equality of the signatures of sparse constants *)







(** ** Typing of the nodes the gradient rules build *)

Lemma type_of_csm_properties (csm : expr) (f : format) (d : dtype) (k : nat) :
  type_of csm = Some (SparseTensor f d) ->
  type_of (App OpCSMProperties [csm] k)
  = Some (match k with O => TensorType d 1 | _ => TensorType Int32 1 end).
Proof. intros H. simpl. rewrite H. reflexivity. Qed.

Lemma csm_properties_ok (csm : expr) (f : format) (d : dtype) :
  type_of csm = Some (SparseTensor f d) ->
  csm_properties csm
  = Ok (App OpCSMProperties [csm] 0, App OpCSMProperties [csm] 1,
        App OpCSMProperties [csm] 2, App OpCSMProperties [csm] 3).
Proof. intros H. unfold csm_properties, sparse_format. now rewrite H. Qed.

Lemma CSM_on_properties (fmt f : format) (d dt : dtype) (csm data : expr) :
  type_of csm = Some (SparseTensor f d) ->
  type_of data = Some (TensorType dt 1) ->
  CSM fmt data (App OpCSMProperties [csm] 1) (App OpCSMProperties [csm] 2)
    (App OpCSMProperties [csm] 3)
  = Ok (App (OpCSM fmt)
          [data; App OpCSMProperties [csm] 1; App OpCSMProperties [csm] 2;
           App OpCSMProperties [csm] 3] 0).
Proof.
  intros Hc Hd. unfold CSM, is_vector_of_integers.
  rewrite Hd, !(type_of_csm_properties _ _ _ _ Hc). reflexivity.
Qed.

(** ** C4: the gradient of extraction and the connection pattern of
    construction *)

(** C4, as stated, fails: when the gradient that arrives for the data output
    is disconnected, the rule does not return a [CSM] of that gradient with
    the original pattern. *)
Lemma CSMProperties_grad_disconnected_differs :
  CSMProperties_grad x_csr g_disconnected
  <> Ok [App (OpCSM csr)
           [Fresh DisconnectedType; App OpCSMProperties [x_csr] 1;
            App OpCSMProperties [x_csr] 2; App OpCSMProperties [x_csr] 3] 0].
Proof. vm_compute. intros H. discriminate H. Qed.

(** C4, amended: for a sparse input of format [f], when the gradient [g0]
    that arrives for the data output is a dense vector, the rule of
    [CSMProperties] returns for its single input the expression
    [CSM f (g0, indices, indptr, shape)] over the input's own index, pointer
    and shape outputs, whatever arrives for the other three outputs; when
    [g0] is disconnected it returns [sp_zeros_like] of the input.  [CSM]
    declares the connection pattern [[True],[False],[False],[False]] and its
    gradient rule returns a disconnected gradient for the index, pointer and
    shape inputs. *)
Theorem CSMProperties_grad_repacks (csm g0 : expr) (gs : list expr)
    (f : format) (d : dtype) :
  type_of csm = Some (SparseTensor f d) ->
  (forall dt, type_of g0 = Some (TensorType dt 1) ->
     CSMProperties_grad csm (g0 :: gs)
     = Ok [App (OpCSM f)
             [g0; App OpCSMProperties [csm] 1; App OpCSMProperties [csm] 2;
              App OpCSMProperties [csm] 3] 0])
  /\
  (type_of g0 = Some DisconnectedType ->
     CSMProperties_grad csm (g0 :: gs) = (z ← sp_zeros_like csm; Ok [z]))
  /\
  CSM_connection_pattern = [[true]; [false]; [false]; [false]]
  /\
  (forall x_data x_indices x_indptr x_shape g_out fg dg,
     type_of g_out = Some (SparseTensor fg dg) ->
     exists g_data,
       CSM_grad x_data x_indices x_indptr x_shape g_out
       = Ok [g_data; Fresh DisconnectedType; Fresh DisconnectedType;
             Fresh DisconnectedType]).
Proof.
  intros Hc. repeat split.
  - intros dt Hg. unfold CSMProperties_grad. simpl.
    rewrite bool_decide_eq_false_2 by (rewrite Hg; discriminate).
    rewrite (csm_properties_ok _ _ _ Hc). simpl.
    unfold sparse_format. rewrite Hc. simpl.
    now rewrite (CSM_on_properties f f d dt csm g0 Hc Hg).
  - intros Hg. unfold CSMProperties_grad. simpl.
    now rewrite bool_decide_eq_true_2 by exact Hg.
  - intros x_data x_indices x_indptr x_shape g_out fg dg Hg.
    unfold CSM_grad. rewrite (csm_properties_ok _ _ _ Hg). simpl. eauto.
Qed.

Lemma CSMProperties_grad_repacks_witness :
  CSMProperties_grad x_csr
    [Var "g_data" (TensorType Float64 1); Fresh DisconnectedType]
  = Ok [App (OpCSM csr)
          [Var "g_data" (TensorType Float64 1); App OpCSMProperties [x_csr] 1;
           App OpCSMProperties [x_csr] 2; App OpCSMProperties [x_csr] 3] 0].
Proof.
  refine (proj1 (CSMProperties_grad_repacks x_csr _ _ csr Float64 _) Float64 _);
    reflexivity.
Defined.

(** ** C6: the gradient kind behind [sp_sum] *)

(** C6, as stated, fails: asked through [sp_sum] with no gradient kind, the
    sum over all entries of a csr float64 matrix differentiates by the
    regular rule, whose result is not that of the structured rule. *)
Lemma sp_sum_default_not_structured :
  (node ← sp_sum x_csr None None; SpSum_node_grad upcast_same node gz_scalar)
  <> (r ← SpSum_grad_structured upcast_same None x_csr gz_scalar; Ok [r]).
Proof. vm_compute. intros H. discriminate H. Qed.

(** C6, amended: for a sparse operand of a continuous dtype and every axis
    setting (None, 0 or 1), [sp_sum] called without a gradient kind builds
    the reduction with [sparse_grad = False], and the gradient rule of that
    node is the regular one: the operand is densified, the output gradient
    is broadcast against it, and the result is converted back to the
    operand's sparse format.  The structured rule is the one used when
    [sparse_grad=True] is passed to [sp_sum]; it is the default only of the
    constructor of [SpSum] itself. *)
Theorem sp_sum_default_gradient (upcast : dtype -> dtype -> dtype)
    (x gz0 gz1 : expr) (f : format) (d dg : dtype) :
  type_of x = Some (SparseTensor f d) ->
  dtype_in d continuous_dtypes = true ->
  type_of gz0 = Some (TensorType dg 0) ->
  type_of gz1 = Some (TensorType dg 1) ->
  let dense_x := App OpDenseFromSparse [x] 0 in
  (sp_sum x None None = Ok (App (OpSpSum None false) [x] 0) /\
   sp_sum x (Some (Some 0)) None = Ok (App (OpSpSum (Some 0) false) [x] 0) /\
   sp_sum x (Some (Some 1)) None = Ok (App (OpSpSum (Some 1) false) [x] 0))
  /\
  (SpSum_node_grad upcast (App (OpSpSum None false) [x] 0) gz0
   = Ok [App (OpSparseFromDense f) [second dense_x gz0] 0] /\
   SpSum_node_grad upcast (App (OpSpSum (Some 0) false) [x] 0) gz1
   = Ok [App (OpSparseFromDense f)
           [py_mul upcast (specify_broadcastable (dimshuffle "x,0" gz1) 0)
              (ones_like dense_x)] 0] /\
   SpSum_node_grad upcast (App (OpSpSum (Some 1) false) [x] 0) gz1
   = Ok [App (OpSparseFromDense f)
           [py_mul upcast (specify_broadcastable (dimshuffle "0,x" gz1) 1)
              (ones_like dense_x)] 0])
  /\
  (forall ax gz, ax ∈ [None; Some 0; Some 1] ->
     sp_sum x (Some ax) (Some true) = Ok (App (OpSpSum ax true) [x] 0) /\
     SpSum_node_grad upcast (App (OpSpSum ax true) [x] 0) gz
     = (r ← SpSum_grad_structured upcast ax x gz; Ok [r]) /\
     SpSum_init (Some ax) None = Ok {| axis := ax; structured := true |}).
Proof.
  intros Hx Hd Hg0 Hg1 dense_x.
  assert (Hdt : variable_dtype x = Ok d)
    by (unfold variable_dtype; now rewrite Hx).
  assert (Hdx : dense_from_sparse x = dense_x)
    by (unfold dense_from_sparse, _is_sparse_variable; now rewrite Hx).
  assert (Hs0 : _is_sparse_variable gz0 = false)
    by (unfold _is_sparse_variable; now rewrite Hg0).
  assert (Hs1 : _is_sparse_variable gz1 = false)
    by (unfold _is_sparse_variable; now rewrite Hg1).
  split; [|split].
  - unfold sp_sum, SpSum_init, SpSum_call, sparse_format. simpl.
    rewrite Hx. simpl. repeat split.
  - unfold SpSum_node_grad, SpSum_grad, SpSum_grad_regular, sparse_format.
    simpl. rewrite Hdt. simpl. rewrite Hd. simpl. rewrite Hx. simpl.
    rewrite Hdx, Hs0, Hs1.
    repeat split.
    + unfold SparseFromDense. simpl. rewrite Hx, Hg0. reflexivity.
    + unfold SparseFromDense. simpl. rewrite Hx, Hg1. reflexivity.
    + unfold SparseFromDense. simpl. rewrite Hx, Hg1. reflexivity.
  - intros ax gz Hax.
    unfold sp_sum, SpSum_init, SpSum_call, sparse_format, SpSum_node_grad,
      SpSum_grad.
    simpl. rewrite (bool_decide_eq_true_2 _ Hax), Hx, Hdt. simpl.
    rewrite Hd. simpl. repeat split.
Qed.

Lemma sp_sum_default_gradient_witness :
  SpSum_node_grad upcast_same (App (OpSpSum None false) [x_csr] 0) gz_scalar
  = Ok [App (OpSparseFromDense csr)
          [second (App OpDenseFromSparse [x_csr] 0) gz_scalar] 0].
Proof.
  refine (proj1 (proj1 (proj2
    (sp_sum_default_gradient upcast_same x_csr gz_scalar
       (Var "gz" (TensorType Float64 1)) csr Float64 Float64 _ _ _ _)))).
  - reflexivity.
  - reflexivity.
  - reflexivity.
  - reflexivity.
Defined.

(** ** C9: the gradient of stacking *)

Lemma mapM_result_ok {A B : Type} (f : A -> result B) (g : A -> B) (l : list A) :
  Forall (fun x => f x = Ok (g x)) l ->
  mapM (M := result) f l = Ok (map g l).
Proof.
  induction 1 as [|x l Hx _ IH]; simpl.
  - reflexivity.
  - rewrite Hx. simpl. rewrite IH. reflexivity.
Qed.

Lemma dense_from_sparse_matrix (gz : expr) :
  (exists f d, type_of gz = Some (SparseTensor f d)) \/
  (exists d, type_of gz = Some (TensorType d 2)) ->
  exists d, type_of (dense_from_sparse gz) = Some (TensorType d 2).
Proof.
  unfold dense_from_sparse, _is_sparse_variable.
  intros [(f & d & H)|(d & H)]; rewrite H; simpl.
  - rewrite H. simpl. eauto.
  - eauto.
Qed.

Lemma stack_grad_slices (fmt : format) (ax : Z) (inputs : list expr) (gz : expr) :
  Forall (fun x => exists f d, type_of x = Some (SparseTensor f d)) inputs ->
  (exists f d, type_of gz = Some (SparseTensor f d)) \/
  (exists d, type_of gz = Some (TensorType d 2)) ->
  exists grads,
    stack_grad fmt ax inputs gz = Ok grads /\
    length grads = length inputs /\
    forall (k : nat) (x : expr) (d : dtype),
      inputs !! k = Some x ->
      type_of x ≫= type_dtype = Some d ->
      exists slice,
        Split (length inputs) (dense_from_sparse gz) ax
          (stack (map (fun x => subscript (sparse_shape x) ax) inputs)) !! k
        = Some slice /\
        grads !! k
        = Some (if dtype_in d tensor_continuous_dtypes
                then Some (App (OpSparseFromDense fmt) [slice] 0)
                else None).
Proof.
  intros Hin Hgz.
  set (cont := fun x : expr =>
         dtype_in (default Float64 (type_of x ≫= type_dtype))
           tensor_continuous_dtypes).
  set (sfd := fun s : expr => App (OpSparseFromDense fmt) [s] 0).
  set (sizes := stack (map (fun x => subscript (sparse_shape x) ax) inputs)).
  assert (Hgz' : (if _is_sparse_variable gz then dense_from_sparse gz else gz)
                 = dense_from_sparse gz).
  { unfold dense_from_sparse. destruct (_is_sparse_variable gz); reflexivity. }
  destruct (dense_from_sparse_matrix gz Hgz) as (dg & Hdg).
  exists (zip_with choose (map cont inputs)
            (map sfd (Split (length inputs) (dense_from_sparse gz) ax sizes))).
  assert (Hsplit_len :
    length (Split (length inputs) (dense_from_sparse gz) ax sizes)
    = length inputs).
  { unfold Split. now rewrite length_map, length_seq. }
  split; [|split].
  - unfold stack_grad.
    rewrite (mapM_result_ok _ cont).
    2:{ eapply Forall_impl; [exact Hin|]. intros x (f & d & Hx).
        unfold cont, variable_dtype. rewrite Hx. reflexivity. }
    simpl. rewrite Hgz'. fold sizes.
    rewrite (mapM_result_ok _ sfd); [reflexivity|].
    apply Forall_forall. intros s Hs.
    unfold Split in Hs. apply list_elem_of_fmap in Hs as (k & -> & Hk).
    apply elem_of_seq in Hk.
    unfold SparseFromDense. simpl. rewrite Hdg.
    rewrite lookup_replicate_2 by lia. reflexivity.
  - rewrite length_zip_with, !length_map, Hsplit_len. lia.
  - intros k x d Hk Hd.
    assert (Hlt : (k < length inputs)%nat) by (eapply lookup_lt_Some; eauto).
    destruct (lookup_lt_is_Some_2
                (Split (length inputs) (dense_from_sparse gz) ax sizes) k)
      as (slice & Hslice); [lia|].
    exists slice. split; [exact Hslice|].
    rewrite lookup_zip_with, !list_lookup_fmap, Hk, Hslice. simpl.
    unfold cont, choose, sfd. rewrite Hd. reflexivity.
Qed.

(** C9: on sparse inputs and an output gradient that is a matrix, the
    gradient rule of [HStack] (of [VStack]) densifies the output gradient if
    it arrived sparse, splits it along axis 1 (axis 0) into as many
    consecutive pieces as there are inputs, sized by the inputs' column
    counts (row counts), and returns for input [k] piece [k] converted to
    the operator's sparse format when the input's dtype is continuous, and
    no gradient otherwise. *)
Theorem stack_grad_per_input (fmt : format) (inputs : list expr) (gz : expr) :
  Forall (fun x => exists f d, type_of x = Some (SparseTensor f d)) inputs ->
  (exists f d, type_of gz = Some (SparseTensor f d)) \/
  (exists d, type_of gz = Some (TensorType d 2)) ->
  (exists grads,
     HStack_grad fmt inputs gz = Ok grads /\
     length grads = length inputs /\
     forall (k : nat) (x : expr) (d : dtype),
       inputs !! k = Some x ->
       type_of x ≫= type_dtype = Some d ->
       exists slice,
         Split (length inputs) (dense_from_sparse gz) 1
           (stack (map (fun x => subscript (shape (dense_from_sparse x)) 1)
                     inputs)) !! k
         = Some slice /\
         grads !! k
         = Some (if dtype_in d tensor_continuous_dtypes
                 then Some (App (OpSparseFromDense fmt) [slice] 0)
                 else None))
  /\
  (exists grads,
     VStack_grad fmt inputs gz = Ok grads /\
     length grads = length inputs /\
     forall (k : nat) (x : expr) (d : dtype),
       inputs !! k = Some x ->
       type_of x ≫= type_dtype = Some d ->
       exists slice,
         Split (length inputs) (dense_from_sparse gz) 0
           (stack (map (fun x => subscript (shape (dense_from_sparse x)) 0)
                     inputs)) !! k
         = Some slice /\
         grads !! k
         = Some (if dtype_in d tensor_continuous_dtypes
                 then Some (App (OpSparseFromDense fmt) [slice] 0)
                 else None)).
Proof.
  intros Hin Hgz. split.
  - exact (stack_grad_slices fmt 1 inputs gz Hin Hgz).
  - exact (stack_grad_slices fmt 0 inputs gz Hin Hgz).
Qed.

Lemma stack_grad_per_input_witness :
  exists grads,
    HStack_grad csc stack_inputs gz_sparse = Ok grads /\
    length grads = 2%nat.
Proof.
  assert (H1 : Forall (fun x => exists f d, type_of x = Some (SparseTensor f d))
                 stack_inputs)
    by (repeat constructor; simpl; eauto).
  assert (H2 : (exists f d, type_of gz_sparse = Some (SparseTensor f d)) \/
               (exists d, type_of gz_sparse = Some (TensorType d 2)))
    by (left; simpl; eauto).
  destruct (stack_grad_per_input csc stack_inputs gz_sparse H1 H2)
    as [(grads & Hg & Hl & _) _].
  exists grads. split; [exact Hg | exact Hl].
Defined.
(** * Further operators *)

(** ** Loops that update a data vector in place *)








(** ** Scaling the rows and the columns of a matrix *)





Example RowScaleCSC_2x3 :
  RowScaleCSC_perform X_csc_2x3 s_rows
  = Ok (SpMatrix csc Float64 [20; 60; 90] [0; 1; 1] [0; 1; 2; 3] (2, 3))
  /\ RowScaleCSC_perform X_2x3 s_rows = Raise AssertionError.
Proof. split; reflexivity. Qed.







Example ColScaleCSC_2x3 :
  ColScaleCSC_perform X_csc_2x3 s_cols
  = Ok (SpMatrix csc Float64 [20; 60; 150] [0; 1; 1] [0; 1; 2; 3] (2, 3))
  /\ ColScaleCSC_perform X_csc_2x3 s_rows = Raise AssertionError.
Proof. split; reflexivity. Qed.











Example scale_csr_2x3 :
  col_scale_eval X_2x3 s_cols
  = Ok (SpMatrix csr Float64 [20; 100; 90] [0; 2; 1] [0; 2; 3] (2, 3))
  /\ row_scale_eval X_2x3 s_rows
    = Ok (SpMatrix csr Float64 [20; 40; 90] [0; 2; 1] [0; 2; 3] (2, 3)).
Proof. split; reflexivity. Qed.

(** ** The elementwise product with a dense operand *)







Example MulSD_2x3 :
  MulSD_perform Float64 X_2x3 (DMatrix Y_2x3)
  = Ok (SpMatrix csr Float64 [10; 60; 150] [0; 2; 1] [0; 2; 3] (2, 3))
  /\ MulSD_perform Float64 X_2x3 (DMatrix B_3x2) = Raise AssertionError.
Proof. split; reflexivity. Qed.

(** ** The sum of two matrices of one pattern *)



(** ** The gradient of construction on the forward pattern *)

Lemma stored_sum_split (indices data : list Z) (lo m hi c : Z) :
  lo <= m -> m <= hi ->
  stored_sum indices data lo hi c
  = stored_sum indices data lo m c + stored_sum indices data m hi c.
Proof.
  intros H1 H2. unfold stored_sum, range.
  replace (hi - lo) with ((m - lo) + (hi - m)) by lia.
  rewrite seqZ_app by lia. rewrite List.map_app, sumZ_app.
  replace (lo + (m - lo)) with m by lia. reflexivity.
Qed.

Lemma stored_sum_unique (indices data : list Z) (lo hi c p : Z) :
  lo <= p < hi -> indices !! Z.to_nat p = Some c ->
  (forall q, lo <= q < hi -> indices !! Z.to_nat q = Some c -> q = p) ->
  stored_sum indices data lo hi c = default 0 (data !! Z.to_nat p).
Proof.
  intros Hp Hc Huniq.
  rewrite (stored_sum_split indices data lo (p + 1) hi) by lia.
  rewrite stored_sum_snoc by lia.
  rewrite (stored_sum_absent indices data lo p).
  2:{ intros q Hq Hq'. assert (q = p) by (apply Huniq; [lia|exact Hq']). lia. }
  rewrite (stored_sum_absent indices data (p + 1) hi).
  2:{ intros q Hq Hq'. assert (q = p) by (apply Huniq; [lia|exact Hq']). lia. }
  unfold stored_term. rewrite bool_decide_eq_true_2 by exact Hc. lia.
Qed.

Lemma line_of (indptr : list Z) (n nnz p : Z) :
  0 <= n -> len indptr = n + 1 -> indptr !! 0%nat = Some 0 ->
  last indptr = Some nnz -> 0 <= p < nnz ->
  exists i lo hi, 0 <= i < n /\
    indptr !! Z.to_nat i = Some lo /\ indptr !! Z.to_nat (i + 1) = Some hi /\
    lo <= p < hi.
Proof.
  intros Hn Hlen H0 Hlast Hp. unfold len in Hlen.
  assert (Hk : forall k : nat, (k < length indptr)%nat ->
            forall v, indptr !! k = Some v -> p < v ->
            exists i lo hi, 0 <= i < n /\
              indptr !! Z.to_nat i = Some lo /\
              indptr !! Z.to_nat (i + 1) = Some hi /\ lo <= p < hi).
  { induction k as [|k IH]; intros Hlt v Hv Hpv.
    - rewrite H0 in Hv. injection Hv as <-. lia.
    - destruct (lookup_lt_is_Some_2 indptr k) as (u & Hu); [lia|].
      destruct (decide (p < u)) as [Hpu|Hpu].
      + apply (IH ltac:(lia) u Hu Hpu).
      + exists (Z.of_nat k), u, v. rewrite Nat2Z.id.
        replace (Z.to_nat (Z.of_nat k + 1)) with (S k) by lia.
        repeat split; auto; lia. }
  rewrite last_lookup in Hlast.
  apply (Hk (Init.Nat.pred (length indptr)) ltac:(lia) nnz Hlast). lia.
Qed.

Lemma CSMGrad_perform_run (X G : spmatrix) (gout : list Z) :
  sp_wf X ->
  for_each (range 0 (len (sp_indptr X) - 1))
    (csm_grad_line (sp_indices X) (sp_indptr X) (sp_data G) (sp_indices G)
       (sp_indptr G))
    (replicate (Z.to_nat (minor_dim X)) 0, replicate (length (sp_data X)) 0)
  = Ok (replicate (Z.to_nat (minor_dim X)) 0, gout) ->
  CSMGrad_perform (Vector (sp_dtype X) (sp_data X)) (sp_indices X)
    (sp_indptr X) (shape_list (sp_shape X))
    (Vector (sp_dtype G) (sp_data G)) (sp_indices G) (sp_indptr G)
    (shape_list (sp_shape G)) = Ok (Vector (sp_dtype G) gout).
Proof.
  intros HX Hrun. unfold CSMGrad_perform, shape_list. simpl.
  assert (Hdim :
    (if bool_decide (len (sp_indptr X) - 1 = fst (sp_shape X))
     then getitem [fst (sp_shape X); snd (sp_shape X)] 1
     else getitem [fst (sp_shape X); snd (sp_shape X)] 0)
    = Ok (minor_dim X)).
  { rewrite <- (csm_grad_sp_dim X HX). case_bool_decide; reflexivity. }
  rewrite Hdim. simpl.
  rewrite (np_zeros_nonneg (minor_dim X)).
  2:{ destruct HX. unfold minor_dim. destruct (sp_format X); lia. }
  simpl. rewrite np_zeros_len. simpl. rewrite Hrun. reflexivity.
Qed.

Lemma X_2x3_distinct : line_distinct X_2x3.
Proof.
  intros i lo hi p q Hlo Hhi Hp Hq Hidx.
  destruct i as [|[|i]]; simpl in Hlo, Hhi; try discriminate;
    injection Hlo as <-; injection Hhi as <-.
  - assert (Hp' : p = 0%nat \/ p = 1%nat) by lia.
    assert (Hq' : q = 0%nat \/ q = 1%nat) by lia.
    destruct Hp' as [-> | ->], Hq' as [-> | ->];
      try reflexivity; discriminate.
  - lia.
Defined.

(** X8: when the incoming gradient has the forward matrix's own pattern,
    and no line of that pattern stores a position twice,
    [CSMGrad.perform] returns the gradient's data vector unchanged: the
    gradient of construction undoes the extraction of the parts. *)
Theorem CSMGrad_own_pattern (X : spmatrix) (g : vector) :
  sp_wf X -> line_distinct X -> length (v_data g) = length (sp_data X) ->
  CSMGrad_perform (Vector (sp_dtype X) (sp_data X)) (sp_indices X)
    (sp_indptr X) (shape_list (sp_shape X))
    g (sp_indices X) (sp_indptr X) (shape_list (sp_shape X)) = Ok g.
Proof.
  intros HX Hdist Hlen.
  set (G := SpMatrix (sp_format X) (v_dtype g) (v_data g) (sp_indices X)
              (sp_indptr X) (sp_shape X)).
  assert (HG : sp_wf G).
  { destruct HX as [Hr Hc Hd Hpl Hp0 Hplast Hpm Hmin].
    constructor; simpl; auto. congruence. }
  destruct (csm_grad_lines_ok X G HX HG eq_refl eq_refl)
    as (gout & Hrun & Hglen & Hval).
  pose proof (CSMGrad_perform_run X G gout HX Hrun) as Hperf.
  simpl in Hperf. destruct g as [dt gd]. simpl in *.
  rewrite Hperf. f_equal. f_equal.
  apply list_eq. intros p.
  destruct (decide (p < length gd)%nat) as [Hp|Hp].
  2:{ rewrite !lookup_ge_None_2 by lia. reflexivity. }
  pose proof (wf_data X HX) as Hd.
  pose proof (wf_ptr_len X HX) as Hpl.
  assert (Hmaj : 0 <= major_dim X).
  { destruct HX. unfold major_dim. destruct (sp_format X); lia. }
  destruct (line_of (sp_indptr X) (major_dim X) (len (sp_indices X)) (Z.of_nat p))
    as (i & lo & hi & Hi & Hlo & Hhi & Hplh); auto.
  { apply (wf_ptr_first X HX). }
  { apply (wf_ptr_last X HX). }
  { unfold len. lia. }
  destruct (lookup_lt_is_Some_2 (sp_indices X) p) as (c & Hc); [lia|].
  destruct (lookup_lt_is_Some_2 gd p) as (v & Hv); [lia|].
  specialize (Hval i lo hi (Z.of_nat p) c (proj1 Hi) Hlo Hhi Hplh).
  rewrite Nat2Z.id in Hval. rewrite (Hval Hc). simpl. rewrite Hlo, Hhi. simpl.
  rewrite (stored_sum_unique (sp_indices X) gd lo hi c (Z.of_nat p)); auto.
  - rewrite Nat2Z.id, Hv. reflexivity.
  - now rewrite Nat2Z.id.
  - intros q Hq Hcq.
    assert (Heq : Z.to_nat q = p).
    { apply (Hdist (Z.to_nat i) lo hi (Z.to_nat q) p); auto.
      - replace (S (Z.to_nat i)) with (Z.to_nat (i + 1)) by lia. exact Hhi.
      - assert (0 <= lo).
        { apply (nondecreasing_lookup (sp_indptr X) 0 (Z.to_nat i) 0 lo);
            auto; [apply (wf_ptr_mono X HX)|apply (wf_ptr_first X HX)|lia]. }
        lia.
      - congruence. }
    assert (0 <= lo).
    { apply (nondecreasing_lookup (sp_indptr X) 0 (Z.to_nat i) 0 lo);
        auto; [apply (wf_ptr_mono X HX)|apply (wf_ptr_first X HX)|lia]. }
    lia.
Qed.

Lemma CSMGrad_own_pattern_witness :
  CSMGrad_perform (Vector Float64 [10; 20; 30]) [0; 2; 1] [0; 2; 3] [2; 3]
    g_data_3 [0; 2; 1] [0; 2; 3] [2; 3] = Ok g_data_3.
Proof.
  exact (CSMGrad_own_pattern X_2x3 g_data_3 X_2x3_wf X_2x3_distinct eq_refl).
Defined.

(** ** Structured elementwise operations and the empty matrix *)

Lemma indptr_nonneg (X : spmatrix) (i : nat) (lo : Z) :
  sp_wf X -> sp_indptr X !! i = Some lo -> 0 <= lo.
Proof.
  intros HX Hlo.
  apply (nondecreasing_lookup (sp_indptr X) 0 i 0 lo);
    [apply (wf_ptr_mono X HX)|apply (wf_ptr_first X HX)|exact Hlo|lia].
Qed.

Lemma sp_get_stored (X : spmatrix) (p : nat) (i j : Z) :
  sp_wf X -> line_distinct X -> stored_at X p i j ->
  sp_get X i j = default 0 (sp_data X !! p).
Proof.
  intros HX Hdist (lo & hi & H0 & Hlo & Hhi & Hp & Hidx).
  unfold sp_get. rewrite Hlo, Hhi. simpl.
  pose proof (indptr_nonneg X _ lo HX Hlo) as Hlo0.
  rewrite (stored_sum_unique _ _ lo hi _ (Z.of_nat p)).
  - now rewrite Nat2Z.id.
  - exact Hp.
  - now rewrite Nat2Z.id.
  - intros q Hq Hcq.
    assert (Z.to_nat q = p); [|lia].
    apply (Hdist (Z.to_nat (match sp_format X with csr => i | csc => j end)) lo hi);
      auto; try lia.
    + replace (S (Z.to_nat (match sp_format X with csr => i | csc => j end)))
        with (Z.to_nat (match sp_format X with csr => i | csc => j end + 1))
        by lia.
      exact Hhi.
    + congruence.
Qed.

Lemma sp_get_unstored (X : spmatrix) (i j : Z) :
  sp_wf X -> 0 <= match sp_format X with csr => i | csc => j end < major_dim X ->
  (forall p, ~ stored_at X p i j) ->
  sp_get X i j = 0.
Proof.
  intros HX Hmaj Hno.
  destruct (indptr_line (sp_indptr X) (major_dim X) (len (sp_indices X)) _
              (wf_ptr_len X HX) (wf_ptr_mono X HX) (wf_ptr_first X HX)
              (wf_ptr_last X HX) Hmaj)
    as (lo & hi & Hlo & Hhi & Hlo0 & Hlohi & Hhinnz).
  unfold sp_get. rewrite Hlo, Hhi. simpl.
  apply stored_sum_absent. intros q Hq Hcq.
  apply (Hno (Z.to_nat q)). exists lo, hi.
  repeat split; auto; try lia.
Qed.

Lemma X_2x3_fits : fits_int32 X_2x3.
Proof.
  unfold fits_int32, int32_range; simpl.
  repeat split; repeat constructor; lia.
Defined.

(** X9: a function built by [structured_monoid], evaluated on a
    well-formed matrix that fits 32-bit indices and stores no position
    twice, returns a matrix of the same format, shape and pattern; the
    entry at every stored position is the operation applied to the input's
    entry, and every position that is not stored stays zero, whatever the
    operation gives for zero. *)
Theorem structured_monoid_on_stored_entries (f : Z -> Z) (dt : dtype) (X : spmatrix) :
  sp_wf X -> fits_int32 X -> line_distinct X ->
  exists Y,
    structured_monoid_eval f dt X = Ok Y /\
    sp_format Y = sp_format X /\ sp_dtype Y = dt /\
    sp_data Y = map f (sp_data X) /\
    sp_indices Y = sp_indices X /\ sp_indptr Y = sp_indptr X /\
    sp_shape Y = sp_shape X /\
    (forall p i j, stored_at X p i j -> sp_get Y i j = f (sp_get X i j)) /\
    (forall i j, 0 <= i < fst (sp_shape X) -> 0 <= j < snd (sp_shape X) ->
       (forall p, ~ stored_at X p i j) -> sp_get Y i j = 0).
Proof.
  intros HX H32 Hdist.
  set (Y := SpMatrix (sp_format X) dt (map f (sp_data X)) (sp_indices X)
              (sp_indptr X) (sp_shape X)).
  assert (HY : sp_wf Y).
  { destruct HX as [Hr Hc Hd Hpl Hp0 Hplast Hpm Hmin].
    constructor; simpl; auto. rewrite length_map. exact Hd. }
  exists Y. split.
  { unfold structured_monoid_eval. rewrite (int32_parts X H32). simpl.
    unfold CSM_perform. simpl.
    rewrite bool_decide_eq_true_2
      by (unfold len; now rewrite length_map, (wf_data X HX)).
    simpl. unfold Y. destruct (sp_shape X), (sp_format X); reflexivity. }
  repeat (split; [reflexivity|]). split.
  - intros p i j Hst.
    rewrite (sp_get_stored Y p i j HY Hdist Hst).
    rewrite (sp_get_stored X p i j HX Hdist Hst). simpl.
    destruct Hst as (lo & hi & H0 & Hlo & Hhi & Hp & Hidx).
    destruct (lookup_lt_is_Some_2 (sp_data X) p) as (d & Hd).
    { rewrite (wf_data X HX). eapply lookup_lt_Some; eauto. }
    rewrite list_lookup_fmap, Hd. reflexivity.
  - intros i j Hi Hj Hno. apply (sp_get_unstored Y i j HY).
    + unfold major_dim. simpl. destruct (sp_format X); lia.
    + exact Hno.
Qed.

Lemma structured_monoid_on_stored_entries_witness :
  exists Y, structured_monoid_eval square Float64 X_2x3 = Ok Y /\
    sp_data Y = [100; 400; 900].
Proof.
  destruct (structured_monoid_on_stored_entries square Float64 X_2x3 X_2x3_wf
              X_2x3_fits X_2x3_distinct) as (Y & Hrun & _ & _ & Hd & _).
  exists Y. split; [exact Hrun|exact Hd].
Defined.

Lemma nondecreasing_const (l : list Z) : nondecreasing (map (fun _ => 0) l).
Proof.
  induction l as [|a [|b t] IH]; simpl; auto. split; [lia|exact IH].
Qed.

(** X10: [sp_zeros_like], evaluated on a well-formed matrix whose shape
    fits 32 bits, returns a well-formed matrix of the same format, dtype and
    shape that stores no entry at all, and whose every entry is zero. *)
Theorem sp_zeros_like_eval_empty (X : spmatrix) :
  sp_wf X -> int32_range (fst (sp_shape X)) -> int32_range (snd (sp_shape X)) ->
  exists Y,
    sp_zeros_like_eval X = Ok Y /\ sp_wf Y /\
    sp_format Y = sp_format X /\ sp_dtype Y = sp_dtype X /\
    sp_shape Y = sp_shape X /\ nnz Y = 0 /\
    forall i j, sp_get Y i j = 0.
Proof.
  intros HX Hr Hc.
  set (Y := SpMatrix (sp_format X) (sp_dtype X) [] []
              (map (fun _ => 0) (asarray_int32 (sp_indptr X))) (sp_shape X)).
  exists Y. split.
  { unfold sp_zeros_like_eval, CSM_perform, CSMProperties_perform,
      asarray_int32. simpl.
    rewrite !to_int32_id by assumption.
    unfold Y, asarray_int32. destruct (sp_shape X), (sp_format X); reflexivity. }
  pose proof (wf_ptr_len X HX) as Hpl. unfold len in Hpl.
  assert (Hmaj : 0 <= major_dim X).
  { destruct HX. unfold major_dim. destruct (sp_format X); lia. }
  split.
  { constructor; unfold major_dim, minor_dim; simpl.
    - apply (wf_rows X HX).
    - apply (wf_cols X HX).
    - reflexivity.
    - unfold len, asarray_int32. rewrite !length_map. exact Hpl.
    - unfold asarray_int32. rewrite !list_lookup_fmap.
      destruct (sp_indptr X); [simpl in Hpl; lia|reflexivity].
    - unfold asarray_int32. rewrite last_lookup, !length_map.
      rewrite !list_lookup_fmap.
      destruct (lookup_lt_is_Some_2 (sp_indptr X)
                  (Init.Nat.pred (length (sp_indptr X)))) as (v & Hv); [lia|].
      rewrite Hv. reflexivity.
    - apply nondecreasing_const.
    - constructor. }
  repeat (split; [reflexivity|]).
  intros i j. unfold sp_get. apply stored_sum_absent.
  intros q _. simpl. rewrite lookup_nil. discriminate.
Qed.

Lemma sp_zeros_like_eval_empty_witness :
  exists Y, sp_zeros_like_eval X_2x3 = Ok Y /\ nnz Y = 0.
Proof.
  destruct (sp_zeros_like_eval_empty X_2x3 X_2x3_wf) as (Y & Hrun & _ & _ & _ & _ & Hn & _).
  - unfold int32_range. simpl. lia.
  - unfold int32_range. simpl. lia.
  - exists Y. split; [exact Hrun|exact Hn].
Defined.

(** ** Diagonal matrices *)

Lemma foldr_max_seqZ (n : nat) (lo a : Z) :
  foldr Z.max a (seqZ lo (Z.of_nat n))
  = if decide (n = 0%nat) then a else Z.max a (lo + Z.of_nat n - 1).
Proof.
  revert lo. induction n as [|n IH]; intros lo; [reflexivity|].
  rewrite seqZ_cons by lia. simpl foldr.
  replace (Z.pred (Z.of_nat (S n))) with (Z.of_nat n) by lia.
  replace (Z.succ lo) with (lo + 1) by lia.
  rewrite IH. destruct (decide (n = 0%nat)); simpl; lia.
Qed.

Lemma max_list_range (N : Z) : 0 < N -> max_list (range 0 N) = Some (N - 1).
Proof.
  intros HN. rewrite range_cons by lia. simpl. f_equal.
  unfold range. replace (N - (0 + 1)) with (Z.of_nat (Z.to_nat (N - 1))) by lia.
  rewrite foldr_max_seqZ. destruct (decide (Z.to_nat (N - 1) = 0%nat)); lia.
Qed.

Lemma nondecreasing_seqZ (n : nat) (lo : Z) : nondecreasing (seqZ lo (Z.of_nat n)).
Proof.
  revert lo. induction n as [|n IH]; intros lo; [exact I|].
  rewrite seqZ_cons by lia.
  replace (Z.pred (Z.of_nat (S n))) with (Z.of_nat n) by lia.
  specialize (IH (Z.succ lo)).
  destruct n as [|n]; [exact I|].
  rewrite seqZ_cons in * by lia. split; [lia|exact IH].
Qed.

Lemma range_lookup (lo hi : Z) (k : nat) :
  lo + Z.of_nat k < hi -> range lo hi !! k = Some (lo + Z.of_nat k).
Proof. intros H. unfold range. apply lookup_seqZ. lia. Qed.

Lemma range_length (lo hi : Z) : lo <= hi -> len (range lo hi) = hi - lo.
Proof. intros H. unfold len, range. rewrite length_seqZ. lia. Qed.

(** X11: on a non-empty vector of length N, [SquareDiagonal.perform]
    returns a well-formed N x N csc matrix of the vector's dtype that holds
    the vector on its diagonal and zero elsewhere, and [Diag.perform] on
    that matrix gives the vector back. *)
Theorem SquareDiagonal_Diag_roundtrip (diag : vector) :
  v_data diag <> [] ->
  exists m,
    SquareDiagonal_perform diag = Ok m /\ sp_wf m /\
    sp_format m = csc /\ sp_dtype m = v_dtype diag /\
    sp_shape m = (len (v_data diag), len (v_data diag)) /\
    (forall i j, 0 <= i < len (v_data diag) -> 0 <= j < len (v_data diag) ->
       sp_get m i j
       = if bool_decide (i = j) then default 0 (v_data diag !! Z.to_nat i) else 0) /\
    Diag_perform m = Ok diag.
Proof.
  intros Hne. set (N := len (v_data diag)).
  assert (HN : 0 < N).
  { unfold N, len. destruct (v_data diag); [congruence|simpl; lia]. }
  set (m := SpMatrix csc (v_dtype diag) (v_data diag) (range 0 N)
              (range 0 (N + 1)) (N, N)).
  assert (Hget : forall i j, 0 <= i < N -> 0 <= j < N ->
            sp_get m i j
            = if bool_decide (i = j) then default 0 (v_data diag !! Z.to_nat i)
              else 0).
  { intros i j Hi Hj. unfold sp_get. simpl.
    rewrite (range_lookup 0 (N + 1) (Z.to_nat j)) by lia.
    rewrite (range_lookup 0 (N + 1) (Z.to_nat (j + 1))) by lia. simpl.
    replace (0 + Z.of_nat (Z.to_nat (j + 1))) with (0 + Z.of_nat (Z.to_nat j) + 1)
      by lia.
    rewrite stored_sum_snoc by lia. rewrite stored_sum_empty.
    unfold stored_term.
    replace (0 + Z.of_nat (Z.to_nat j)) with j by lia.
    rewrite (range_lookup 0 N (Z.to_nat j)) by lia.
    replace (0 + Z.of_nat (Z.to_nat j)) with j by lia.
    destruct (decide (i = j)) as [->|Hij].
    - rewrite !bool_decide_eq_true_2 by reflexivity. lia.
    - rewrite !bool_decide_eq_false_2 by congruence. reflexivity. }
  exists m. split.
  { unfold SquareDiagonal_perform, scipy_csc_inferred. fold N.
    rewrite (max_list_range N HN). unfold scipy_compressed. simpl.
    rewrite range_length by lia. unfold m. do 2 f_equal. f_equal; lia. }
  split.
  { constructor; unfold major_dim, minor_dim; simpl; try lia.
    - unfold range. rewrite length_seqZ. unfold N, len. lia.
    - rewrite range_length; lia.
    - rewrite (range_lookup 0 (N + 1) 0) by lia. reflexivity.
    - rewrite last_lookup. unfold range at 1 2. rewrite length_seqZ.
      rewrite range_length by lia.
      replace (Init.Nat.pred (Z.to_nat (N + 1 - 0))) with (Z.to_nat N) by lia.
      rewrite lookup_seqZ. split; lia.
    - unfold range. replace (N + 1 - 0) with (Z.of_nat (Z.to_nat (N + 1))) by lia.
      apply nondecreasing_seqZ.
    - apply Forall_forall. intros j Hj. unfold range in Hj.
      apply elem_of_seqZ in Hj. lia. }
  repeat (split; [reflexivity|]). split; [exact Hget|].
  unfold Diag_perform. simpl. rewrite bool_decide_eq_true_2 by reflexivity.
  simpl. unfold scipy_diagonal. simpl. destruct diag as [dt d]. simpl in *.
  f_equal. f_equal. apply list_eq. intros k.
  rewrite list_lookup_fmap.
  destruct (decide (k < length d)%nat) as [Hk|Hk].
  - rewrite (range_lookup 0 N k) by (unfold N, len; lia). simpl.
    rewrite Hget by (unfold N, len; lia).
    rewrite bool_decide_eq_true_2 by reflexivity.
    replace (Z.to_nat (0 + Z.of_nat k)) with k by lia.
    destruct (lookup_lt_is_Some_2 d k) as (v & Hv); [lia|].
    rewrite Hv. reflexivity.
  - rewrite (lookup_ge_None_2 d) by lia.
    rewrite lookup_ge_None_2; [reflexivity|].
    unfold range. rewrite length_seqZ. unfold N, len. lia.
Qed.

Lemma SquareDiagonal_Diag_roundtrip_witness :
  exists m, SquareDiagonal_perform diag_3 = Ok m /\ Diag_perform m = Ok diag_3.
Proof.
  destruct (SquareDiagonal_Diag_roundtrip diag_3) as (m & Hrun & _ & _ & _ & _ & _ & Hd).
  - discriminate.
  - exists m. split; [exact Hrun|exact Hd].
Defined.

Example SquareDiagonal_3 :
  SquareDiagonal_perform diag_3
  = Ok (SpMatrix csc Float64 [4; 5; 6] [0; 1; 2] [0; 1; 2; 3] (3, 3))
  /\ Diag_perform X_2x3
    = Raise (ValueError "Diag only apply on square matrix" []).
Proof. split; reflexivity. Qed.

(** ** A sparse matrix from a list of rows *)

Lemma B_3x2_wf : dense_wf B_3x2.
Proof. unfold dense_wf; simpl; repeat split; try lia; repeat constructor. Defined.

Lemma concat_lookup_block {A : Type} (bs : list (list A)) (n c k : nat) (b : list A) :
  Forall (fun b => length b = n) bs -> bs !! c = Some b -> (k < n)%nat ->
  concat bs !! (c * n + k)%nat = b !! k.
Proof.
  revert c. induction bs as [|b0 bs IH]; intros c Hall Hc Hk; [discriminate|].
  inversion Hall as [|? ? Hb0 Hbs]; subst. simpl.
  destruct c as [|c]; simpl in *.
  - injection Hc as ->. apply lookup_app_l. lia.
  - rewrite lookup_app_r by lia.
    replace (length b0 + c * length b0 + k - length b0)%nat
      with (c * length b0 + k)%nat by lia.
    apply IH; auto.
Qed.

Lemma concat_length_blocks {A : Type} (bs : list (list A)) (n : nat) :
  Forall (fun b => length b = n) bs -> length (concat bs) = (length bs * n)%nat.
Proof.
  induction 1 as [|b bs Hb _ IH]; simpl; [reflexivity|].
  rewrite length_app, IH, Hb. reflexivity.
Qed.

Lemma stored_sum_shift (idx d idx' d' : list Z) (off n c : Z) :
  0 <= off -> 0 <= n ->
  (forall k, 0 <= k < n ->
     idx !! Z.to_nat (off + k) = idx' !! Z.to_nat k /\
     d !! Z.to_nat (off + k) = d' !! Z.to_nat k) ->
  stored_sum idx d off (off + n) c = stored_sum idx' d' 0 n c.
Proof.
  intros Hoff Hn Hsame.
  assert (Hk : forall m : nat, Z.of_nat m <= n ->
            stored_sum idx d off (off + Z.of_nat m) c
            = stored_sum idx' d' 0 (Z.of_nat m) c).
  { induction m as [|m IH]; intros Hm.
    - replace (off + Z.of_nat 0) with off by lia. now rewrite !stored_sum_empty.
    - replace (off + Z.of_nat (S m)) with (off + Z.of_nat m + 1) by lia.
      replace (Z.of_nat (S m)) with (Z.of_nat m + 1) by lia.
      rewrite !stored_sum_snoc by lia. rewrite IH by lia.
      unfold stored_term.
      destruct (Hsame (Z.of_nat m)) as [-> ->]; [lia|]. reflexivity. }
  specialize (Hk (Z.to_nat n)). rewrite Z2Nat.id in Hk by lia. apply Hk. lia.
Qed.

Lemma nondecreasing_scaled (rows : Z) (n : nat) (lo : Z) :
  0 <= rows -> nondecreasing (map (fun c => c * rows) (seqZ lo (Z.of_nat n))).
Proof.
  intros Hrows. revert lo. induction n as [|n IH]; intros lo; [exact I|].
  rewrite seqZ_cons by lia.
  replace (Z.pred (Z.of_nat (S n))) with (Z.of_nat n) by lia.
  specialize (IH (Z.succ lo)).
  destruct n as [|n]; [exact I|].
  rewrite seqZ_cons in * by lia. simpl in *. split; [nia|exact IH].
Qed.

(** X12: on a dense matrix of values with one index per row, every index a
    row of the output, [ConstructSparseFromList.perform] returns a
    well-formed csc matrix that stores one position per value, and whose
    entry (r, c) is the sum of [values[k][c]] over the positions [k] of
    the index list that name row [r]: rows named more than once are
    accumulated, rows never named are zero. *)
Theorem ConstructSparseFromList_accumulates (out_rows : Z) (values : ndarray) (ilist : list Z) :
  dense_wf values -> len ilist = fst (nd_shape values) ->
  0 <= out_rows -> Forall (fun r => 0 <= r < out_rows) ilist ->
  exists m,
    ConstructSparseFromList_perform [out_rows; snd (nd_shape values)] values ilist
    = Ok m /\
    sp_wf m /\ sp_format m = csc /\ sp_dtype m = nd_dtype values /\
    sp_shape m = (out_rows, snd (nd_shape values)) /\
    nnz m = fst (nd_shape values) * snd (nd_shape values) /\
    forall r c, 0 <= c < snd (nd_shape values) ->
      sp_get m r c
      = stored_sum ilist (column (Z.to_nat c) (nd_rows values))
          0 (fst (nd_shape values)) r.
Proof.
  intros (Hr0 & Hc0 & Hrows & Hcols) Hil Hout Hin.
  unfold ConstructSparseFromList_perform.
  destruct (nd_shape values) as [rows cols] eqn:Hsh. simpl in *.
  rewrite bool_decide_eq_true_2 by lia. simpl.
  set (indices := concat (replicate (Z.to_nat cols) ilist)).
  set (blocks := transpose_rows (Z.to_nat cols) (nd_rows values)).
  set (indptr := map (fun c => c * rows) (range 0 (cols + 1))).
  assert (Hib : Forall (fun b => length b = Z.to_nat rows)
                  (replicate (Z.to_nat cols) ilist)).
  { apply Forall_replicate. unfold len in Hil. lia. }
  assert (Hdb : Forall (fun b => length b = Z.to_nat rows) blocks).
  { unfold blocks, transpose_rows. apply Forall_fmap, Forall_forall.
    intros c _. simpl. unfold column. rewrite length_map.
    unfold len in Hrows. lia. }
  assert (Hilen : length indices = (Z.to_nat cols * Z.to_nat rows)%nat).
  { unfold indices. rewrite (concat_length_blocks _ _ Hib), length_replicate.
    reflexivity. }
  assert (Hdlen : length (concat blocks) = (Z.to_nat cols * Z.to_nat rows)%nat).
  { rewrite (concat_length_blocks _ _ Hdb). unfold blocks, transpose_rows.
    now rewrite length_map, length_seq. }
  assert (Hptr : forall c, 0 <= c <= cols ->
            indptr !! Z.to_nat c = Some (c * rows)).
  { intros c Hc. unfold indptr. rewrite list_lookup_fmap.
    rewrite (range_lookup 0 (cols + 1) (Z.to_nat c)) by lia. simpl.
    f_equal. lia. }
  eexists. split; [reflexivity|].
  unfold scipy_compressed. simpl. fold indices blocks indptr.
  split.
  { constructor; unfold major_dim, minor_dim; simpl.
    - exact Hout.
    - exact Hc0.
    - congruence.
    - unfold indptr, len. rewrite length_map. unfold range.
      rewrite length_seqZ. lia.
    - apply (Hptr 0). lia.
    - rewrite last_lookup. unfold indptr at 1. rewrite length_map.
      unfold range at 1. rewrite length_seqZ.
      replace (Init.Nat.pred (Z.to_nat (cols + 1 - 0))) with (Z.to_nat cols) by lia.
      rewrite Hptr by lia. f_equal. unfold len. rewrite Hilen. nia.
    - unfold indptr, range.
      replace (cols + 1 - 0) with (Z.of_nat (Z.to_nat (cols + 1))) by lia.
      apply nondecreasing_scaled. lia.
    - unfold indices. apply Forall_concat. apply Forall_replicate. exact Hin. }
  repeat (split; [reflexivity|]). split.
  { unfold nnz, len. simpl. rewrite Hdlen. nia. }
  intros r c Hc. unfold sp_get. simpl.
  rewrite (Hptr c) by lia. rewrite (Hptr (c + 1)) by lia. simpl.
  replace ((c + 1) * rows) with (c * rows + rows) by lia.
  apply stored_sum_shift; [nia|lia|].
  intros k Hk.
  replace (Z.to_nat (c * rows + k))
    with (Z.to_nat c * Z.to_nat rows + Z.to_nat k)%nat by nia.
  split.
  - unfold indices. apply (concat_lookup_block _ _ _ _ _ Hib); [|lia].
    apply lookup_replicate_2. lia.
  - apply (concat_lookup_block _ _ _ _ _ Hdb); [|lia].
    unfold blocks, transpose_rows. rewrite list_lookup_fmap.
    rewrite lookup_seq_lt by lia. reflexivity.
Qed.

Lemma ConstructSparseFromList_accumulates_witness :
  exists m,
    ConstructSparseFromList_perform [4; 2] B_3x2 ilist_3 = Ok m /\
    sp_get m 0 1 = 8.
Proof.
  destruct (ConstructSparseFromList_accumulates 4 B_3x2 ilist_3 B_3x2_wf eq_refl)
    as (m & Hrun & _ & _ & _ & _ & _ & Hget).
  - lia.
  - repeat constructor; lia.
  - exists m. split; [exact Hrun|].
    rewrite (Hget 0 1) by (simpl; lia). reflexivity.
Defined.

Example ConstructSparseFromList_3x2 :
  ConstructSparseFromList_perform [4; 2] B_3x2 ilist_3
  = Ok (SpMatrix csc Float64 [1; 3; 5; 2; 4; 6] [0; 2; 0; 0; 2; 0] [0; 3; 6]
          (4, 2)).
Proof. reflexivity. Qed.

(** ** The shape of the structured product *)

(** X13: whenever [StructuredDot.perform] stores an output for a node with
    a dense output type, whatever the library product returned, the output
    is a dense matrix whose shape is the one [StructuredDot.infer_shape]
    announces: the rows of the left operand by the columns of the right
    one. *)
Theorem StructuredDot_dense_output_shape (scipy_mul : spmatrix -> matrix_value -> product)
    (a : spmatrix) (b : matrix_value) (out : matrix_value) :
  StructuredDot_perform scipy_mul false a b = Ok out ->
  exists m, out = Dense m /\
    nd_shape m = StructuredDot_infer_shape (sp_shape a) (value_shape b).
Proof.
  unfold StructuredDot_perform, StructuredDot_infer_shape.
  case_bool_decide; simpl; [|discriminate].
  destruct (scipy_mul a b); try discriminate;
    unfold store_dense; case_bool_decide; simpl;
    try (case_bool_decide; discriminate);
    intros [= <-]; eauto.
Qed.

Lemma StructuredDot_dense_output_shape_witness :
  exists m,
    StructuredDot_perform scipy_mul_GA false X_2x3 (Dense B_3x2) = Ok (Dense m) /\
    nd_shape m = (2, 2).
Proof.
  destruct (StructuredDot_dense_output_shape scipy_mul_GA X_2x3 (Dense B_3x2)
              (Dense GA_2x2) eq_refl) as (m & Hm & Hsh).
  exists m. split; [now rewrite <- Hm|exact Hsh].
Defined.

(** ** The types of scaled and of constant-filled matrices *)

Lemma transpose_typed (x : expr) (f : format) (d : dtype) :
  type_of x = Some (SparseTensor f d) ->
  transpose x = Ok (App OpTranspose [x] 0) /\
  type_of (App OpTranspose [x] 0) = Some (SparseTensor (format_map f) d).
Proof.
  intros Hx. unfold transpose, sparse_format. rewrite Hx. simpl.
  split; [reflexivity|]. unfold in_type. simpl. rewrite Hx. reflexivity.
Qed.

Lemma col_scale_typed (x s : expr) (f : format) (d : dtype) :
  type_of x = Some (SparseTensor f d) ->
  exists r, col_scale x s = Ok r /\ type_of r = Some (SparseTensor f d).
Proof.
  intros Hx. unfold col_scale, sparse_format. rewrite Hx. simpl.
  destruct f.
  - destruct (transpose_typed x csr d Hx) as (Ht & Hty).
    rewrite Ht. simpl.
    set (rs := App OpRowScaleCSC [App OpTranspose [x] 0; s] 0).
    assert (Hrs : type_of rs = Some (SparseTensor csc d)).
    { unfold rs. simpl type_of at 1. unfold out_type, in_type. simpl lookup.
      simpl default. exact Hty. }
    destruct (transpose_typed rs csc d Hrs) as (Ht' & Hty').
    rewrite Ht'. eexists. split; [reflexivity|exact Hty'].
  - eexists. split; [reflexivity|]. simpl. unfold in_type. simpl. exact Hx.
Qed.

Lemma row_scale_typed (x s : expr) (f : format) (d : dtype) :
  type_of x = Some (SparseTensor f d) ->
  exists r, row_scale x s = Ok r /\ type_of r = Some (SparseTensor f d).
Proof.
  intros Hx. unfold row_scale.
  destruct (transpose_typed x f d Hx) as (Ht & Hty). rewrite Ht. simpl.
  destruct (col_scale_typed (App OpTranspose [x] 0) s (format_map f) d Hty)
    as (r & Hr & Hrty).
  rewrite Hr. simpl.
  destruct (transpose_typed r (format_map f) d Hrty) as (Ht' & Hty').
  rewrite Ht'. eexists. split; [reflexivity|].
  rewrite Hty'. destruct f; reflexivity.
Qed.

(** X14: on a sparse variable, [col_scale] and [row_scale] build a
    variable of the input's own type, format included, although a csr input
    goes through [RowScaleCSC] between two transpositions. *)
Theorem scale_keeps_type (x s : expr) (f : format) (d : dtype) :
  type_of x = Some (SparseTensor f d) ->
  (exists r, col_scale x s = Ok r /\ type_of r = Some (SparseTensor f d)) /\
  (exists r, row_scale x s = Ok r /\ type_of r = Some (SparseTensor f d)).
Proof.
  intros Hx. split; [apply col_scale_typed|apply row_scale_typed]; exact Hx.
Qed.

Lemma scale_keeps_type_witness :
  exists r, row_scale x_csr gz_scalar = Ok r /\
            type_of r = Some (SparseTensor csr Float64).
Proof. exact (proj2 (scale_keeps_type x_csr gz_scalar csr Float64 eq_refl)). Defined.

(** X15: on a sparse variable, [sp_ones_like] and [sp_zeros_like] build a
    variable of the input's own type, every check of [CSM.make_node]
    passing on the vectors they hand it; on a variable that is not sparse
    both raise the [TypeError] of [as_sparse_variable]. *)
Theorem sp_like_keeps_type (x : expr) :
  (forall f d, type_of x = Some (SparseTensor f d) ->
     (exists r, sp_ones_like x = Ok r /\ type_of r = Some (SparseTensor f d)) /\
     (exists r, sp_zeros_like x = Ok r /\ type_of r = Some (SparseTensor f d))) /\
  (_is_sparse_variable x = false ->
     sp_ones_like x = Raise not_sparse /\ sp_zeros_like x = Raise not_sparse).
Proof.
  split.
  - intros f d Hx. split.
    + unfold sp_ones_like. rewrite (csm_properties_ok x f d Hx). simpl.
      unfold sparse_format. rewrite Hx. simpl.
      rewrite (CSM_on_properties f f d d x (ones_like (App OpCSMProperties [x] 0)) Hx).
      2:{ unfold ones_like, ext1. simpl. rewrite Hx. reflexivity. }
      eexists. split; [reflexivity|].
      simpl. rewrite Hx. reflexivity.
    + unfold sp_zeros_like. rewrite (csm_properties_ok x f d Hx). simpl.
      unfold sparse_format, sparse_dtype. rewrite Hx. simpl.
      unfold CSM, is_vector_of_integers, zeros_like, ext1. simpl.
      rewrite Hx. simpl.
      eexists. split; [reflexivity|]. reflexivity.
  - intros Hns. unfold _is_sparse_variable in Hns.
    unfold sp_ones_like, sp_zeros_like, csm_properties, sparse_format.
    destruct (type_of x) as [[| |]|]; try discriminate; auto.
Qed.

Lemma sp_like_keeps_type_witness :
  exists r, sp_zeros_like x_csr = Ok r /\ type_of r = Some (SparseTensor csr Float64).
Proof.
  exact (proj2 (proj1 (sp_like_keeps_type x_csr) csr Float64 eq_refl)).
Defined.

(** ** The comparison switches *)

(** X16: each of the six switches computes one relation between its first
    and its second argument in every configuration: [eq] equality, [neq]
    difference, [lt] less than, [gt] greater than, [le] at most, [ge] at
    least.  When only the second argument is sparse the operands are
    swapped and the operator applied is the mirrored one, so the relation
    is still read from the first argument to the second; with no sparse
    argument the switch fails its assertion. *)
Theorem comparison_switches_compute :
  computes Switch.eq (fun a b => bool_decide (a = b)) /\
  computes Switch.neq (fun a b => bool_decide (a <> b)) /\
  computes Switch.lt (fun a b => bool_decide (a < b)) /\
  computes Switch.gt (fun a b => bool_decide (a > b)) /\
  computes Switch.le (fun a b => bool_decide (a <= b)) /\
  computes Switch.ge (fun a b => bool_decide (a >= b)).
Proof.
  repeat split; intros x y;
    unfold Switch.eq, Switch.neq, Switch.lt, Switch.gt, Switch.le, Switch.ge,
      __ComparisonSwitch;
    destruct (_is_sparse_variable x), (_is_sparse_variable y); simpl;
    try reflexivity;
    try (left; eexists; split; [reflexivity|]; intros a b; reflexivity);
    right; eexists; (split; [reflexivity|]); intros a b; simpl;
    apply bool_decide_ext; lia.
Qed.

(** ** The shape of the dense product *)

(** X17: for every node [Dot.make_node] builds, and input shapes that agree
    with the static shapes of the operands, [Dot.infer_shape] raises
    nothing and returns a shape that agrees with the static shape of the
    declared output: same rank, same known dimensions.  The output dtype is
    the promotion of the operands' dtypes. *)
Theorem Dot_infer_shape_agrees (upcast : dtype -> dtype -> dtype) (x y : dot_operand)
    (dt : dtype) (shape_out : list (option Z)) (xshp yshp : list Z) :
  Dot_make_node upcast x y = Ok (dt, shape_out) ->
  agrees (dot_static x) xshp -> agrees (dot_static y) yshp ->
  dt = upcast (d_dtype x) (d_dtype y) /\
  exists shp, Dot_infer_shape x y xshp yshp = Ok shp /\ agrees shape_out shp.
Proof.
  unfold Dot_make_node, Dot_infer_shape, dot_operand_shape, dot_is_sparse,
    dot_ndim, dot_static, agrees.
  destruct x as [dx [fx|sx]], y as [dy [fy|sy]]; simpl.
  - intros [= <- <-] Hx Hy.
    inversion Hx as [|? a ? xs Ha Hxs]; subst.
    inversion Hxs as [|? a' ? xs' Ha' Hxs']; subst. inversion Hxs'; subst.
    inversion Hy as [|? b ? ys Hb Hys]; subst.
    inversion Hys as [|? b' ? ys' Hb' Hys']; subst. inversion Hys'; subst.
    split; [reflexivity|]. eexists. split; [reflexivity|].
    repeat constructor; auto.
  - destruct sy as [|s1 [|s2 [|s3 sy]]]; simpl; try discriminate.
    + intros [= <- <-] Hx Hy.
      inversion Hx as [|? a ? xs Ha Hxs]; subst.
      inversion Hxs as [|? a' ? xs' Ha' Hxs']; subst. inversion Hxs'; subst.
      inversion Hy as [|? b ? ys Hb Hys]; subst. inversion Hys; subst.
      split; [reflexivity|]. eexists. split; [reflexivity|].
      repeat constructor; auto.
    + intros [= <- <-] Hx Hy.
      inversion Hx as [|? a ? xs Ha Hxs]; subst.
      inversion Hxs as [|? a' ? xs' Ha' Hxs']; subst. inversion Hxs'; subst.
      inversion Hy as [|? b ? ys Hb Hys]; subst.
      inversion Hys as [|? b' ? ys' Hb' Hys']; subst. inversion Hys'; subst.
      split; [reflexivity|]. eexists. split; [reflexivity|].
      repeat constructor; auto.
    + unfold len. simpl length.
      repeat (rewrite bool_decide_eq_false_2 by lia). simpl. discriminate.
  - destruct sx as [|s1 [|s2 [|s3 sx]]]; simpl; try discriminate.
    + intros [= <- <-] Hx Hy.
      inversion Hx as [|? a ? xs Ha Hxs]; subst. inversion Hxs; subst.
      inversion Hy as [|? b ? ys Hb Hys]; subst.
      inversion Hys as [|? b' ? ys' Hb' Hys']; subst. inversion Hys'; subst.
      split; [reflexivity|]. eexists. split; [reflexivity|].
      repeat constructor; auto.
    + intros [= <- <-] Hx Hy.
      inversion Hx as [|? a ? xs Ha Hxs]; subst.
      inversion Hxs as [|? a' ? xs' Ha' Hxs']; subst. inversion Hxs'; subst.
      inversion Hy as [|? b ? ys Hb Hys]; subst.
      inversion Hys as [|? b' ? ys' Hb' Hys']; subst. inversion Hys'; subst.
      split; [reflexivity|]. eexists. split; [reflexivity|].
      repeat constructor; auto.
    + unfold len. simpl length.
      repeat (rewrite bool_decide_eq_false_2 by lia). simpl. discriminate.
  - discriminate.
Qed.

Lemma Dot_infer_shape_agrees_witness :
  exists shp, Dot_infer_shape dot_x dot_y [2; 3] [3; 5] = Ok shp /\
    agrees [None; None] shp.
Proof.
  destruct (Dot_infer_shape_agrees upcast_same dot_x dot_y Float64 [None; None]
              [2; 3] [3; 5] eq_refl) as (_ & shp & Hrun & Hag).
  - repeat constructor; discriminate.
  - repeat constructor; intros k [= <-]; reflexivity.
  - exists shp. split; [exact Hrun|exact Hag].
Defined.

(** ** Compiling a function *)

Lemma str_le_total : Total str_le.
Proof. intros a b. unfold str_le. apply String.leb_total. Qed.

Lemma dict_getitem_found (d : list (dict_key * expr)) (k : string) :
  k ∈ str_keys d -> exists v, dict_getitem d k = Ok v /\ (StrKey k, v) ∈ d.
Proof.
  induction d as [|[[s|] v] d IH]; simpl; intros Hk.
  - inversion Hk.
  - unfold str_keys in Hk. simpl in Hk.
    destruct (decide (s = k)) as [->|Hne].
    + rewrite bool_decide_eq_true_2 by reflexivity.
      exists v. split; [reflexivity|]. left.
    + rewrite bool_decide_eq_false_2 by exact Hne.
      inversion Hk; subst; [congruence|].
      destruct (IH ltac:(assumption)) as (v' & Hv' & Hin).
      exists v'. split; [exact Hv'|]. right. exact Hin.
  - unfold str_keys in Hk. simpl in Hk.
    destruct (IH Hk) as (v' & Hv' & Hin).
    exists v'. split; [exact Hv'|]. right. exact Hin.
Qed.

Lemma mapM_result_Forall2 {A B : Type} (f : A -> result B) (l : list A) :
  Forall (fun x => exists y, f x = Ok y) l ->
  exists ys, mapM (M := result) f l = Ok ys /\ Forall2 (fun x y => f x = Ok y) l ys.
Proof.
  induction 1 as [|x l (y & Hy) _ (ys & Hys & Hall)]; simpl.
  - exists []. split; [reflexivity|constructor].
  - exists (y :: ys). rewrite Hy. simpl. rewrite Hys. simpl.
    split; [reflexivity|]. constructor; assumption.
Qed.

(** X18: with inputs in the new style and a dict of outputs whose keys are
    all strings, [function] raises nothing and calls [pfunc] with
    [output_keys] the keys of the dict in sorted order (a permutation of
    the keys, whatever their order of insertion), and with the list of
    outputs holding, position by position, the dict's value at the
    corresponding key; [updates] and [givens] left out arrive as empty
    lists. *)
Theorem function_dict_outputs_sorted (stack_name : option string) (inputs : list input_item)
    (d : list (dict_key * expr)) (updates givens : option replacements)
    (name : option string) (profile : profile_arg) :
  Forall (fun kv => is_str (fst kv) = true) d ->
  existsb is_sequence inputs = false ->
  exists vals,
    function stack_name (InputsSequence inputs) (OutputsDict d) updates givens
      name profile
    = Ok (pfunc inputs (OutputsList vals)
            (default [] updates) (default [] givens)
            (match name with None => stack_name | Some _ => name end)
            profile (Some (sorted (str_keys d)))) /\
    Sorted str_le (sorted (str_keys d)) /\ sorted (str_keys d) ≡ₚ str_keys d /\
    Forall2 (fun k v => dict_getitem d k = Ok v) (sorted (str_keys d)) vals.
Proof.
  intros Hstr Hnew. unfold function.
  rewrite (proj2 (forallb_forall _ _)).
  2:{ intros kv Hkv. apply (proj1 (Forall_forall _ _) Hstr).
      now apply list_elem_of_In. }
  simpl.
  destruct (mapM_result_Forall2 (dict_getitem d) (sorted (str_keys d)))
    as (vals & Hvals & Hall).
  { apply Forall_forall. intros k Hk.
    destruct (dict_getitem_found d k) as (v & Hv & _).
    - unfold sorted in Hk. now rewrite merge_sort_Permutation in Hk.
    - eauto. }
  rewrite Hvals. simpl. rewrite Hnew.
  exists vals. split.
  { destruct updates, givens; reflexivity. }
  split; [apply Sorted_merge_sort, str_le_total|].
  split; [apply merge_sort_Permutation|exact Hall].
Qed.

Lemma function_dict_outputs_sorted_witness :
  exists vals,
    function None (InputsSequence [InputVariable x_csr]) (OutputsDict outputs_dict)
      None None (Some "f") ProfileNone
    = Ok (pfunc [InputVariable x_csr] (OutputsList vals) [] [] (Some "f")
            ProfileNone (Some ["a"; "b"])).
Proof.
  destruct (function_dict_outputs_sorted None [InputVariable x_csr] outputs_dict None None
              (Some "f") ProfileNone) as (vals & Hrun & _ & _ & _).
  - repeat constructor.
  - reflexivity.
  - exists vals. exact Hrun.
Defined.

(** X19: [function] reaches [orig_function] only when some entry of the
    input list is itself a list or tuple, and then only with a false
    [profile] and with no update and no replacement; it reaches [pfunc]
    only when no entry is one, handing on [profile] and the updates and
    replacements it was given (empty lists for [None]); and it raises
    [NotImplementedError] only in the old style, because of a true
    [profile], an update or a replacement. *)
Theorem function_old_style_rejections (stack_name : option string) (inputs : inputs_arg)
    (outputs : outputs_arg) (updates givens : option replacements)
    (name : option string) (profile : profile_arg) :
  (forall i o n,
     function stack_name inputs outputs updates givens name profile
     = Ok (orig_function i o n) ->
     inputs = InputsSequence i /\ existsb is_sequence i = true /\
     profile_bool profile = false /\
     default [] updates = [] /\ default [] givens = []) /\
  (forall p o u g n pr ks,
     function stack_name inputs outputs updates givens name profile
     = Ok (pfunc p o u g n pr ks) ->
     inputs = InputsSequence p /\ existsb is_sequence p = false /\
     u = default [] updates /\ g = default [] givens /\ pr = profile) /\
  (function stack_name inputs outputs updates givens name profile
   = Raise NotImplementedError ->
   exists i, inputs = InputsSequence i /\ existsb is_sequence i = true /\
     (profile_bool profile = true \/ default [] updates <> []
      \/ default [] givens <> [])).
Proof.
  unfold function.
  set (pre := match outputs with
              | OutputsDict d => _
              | _ => _
              end).
  destruct pre as [[ks outs]|e] eqn:Hpre; simpl.
  2:{ assert (He : e = AssertionError \/ exists a b, e = Exception a b).
      { unfold pre in Hpre. destruct outputs; try discriminate.
        destruct (forallb _ d); simpl in Hpre; [|left; congruence].
        destruct (mapM (dict_getitem d) (sorted (str_keys d))) eqn:Hm;
          simpl in Hpre; [discriminate|].
        right. injection Hpre as <-.
        clear -Hm. revert e0 Hm.
        induction (sorted (str_keys d)) as [|k l IH]; intros e0 Hm;
          simpl in Hm; [discriminate|].
        destruct (dict_getitem d k) eqn:Hk; simpl in Hm.
        - destruct (mapM (dict_getitem d) l) eqn:Hl; simpl in Hm;
            [discriminate|]. injection Hm as <-. now apply IH.
        - injection Hm as <-. clear -Hk.
          induction d as [|[[s|] v] d IH]; simpl in Hk.
          + injection Hk as <-. eauto.
          + destruct (bool_decide (s = k)); [discriminate|auto].
          + auto. }
      repeat split; try discriminate.
      intros [= ->]. destruct He as [|(a & b & ?)]; discriminate. }
  destruct inputs as [l|]; simpl.
  2:{ repeat split; discriminate. }
  destruct (existsb is_sequence l) eqn:Hseq; simpl.
  - destruct (profile_bool profile) eqn:Hprof; simpl.
    { split; [|split]; intros; try discriminate. exists l. auto. }
    destruct updates as [[|u us]|], givens as [[|g gs]|]; simpl;
      (split; [|split]); intros; try discriminate;
      try (match goal with H : Ok _ = Ok _ |- _ => injection H as <- <- <- end;
           auto);
      exists l; repeat split; auto;
      right; (left; discriminate) || (right; discriminate).
  - split; [|split]; intros; try discriminate.
    match goal with H : Ok _ = Ok _ |- _ =>
      injection H as <- <- <- <- <- <- <- end.
    destruct updates, givens; auto.
Qed.

Lemma function_old_style_rejections_witness :
  exists i,
    InputsSequence [InputSequence [x_csr]] = InputsSequence i /\
    existsb is_sequence i = true /\
    (profile_bool (ProfileBool true) = true \/ default [] (@None replacements) <> []
     \/ default [] (@None replacements) <> []).
Proof.
  apply (proj2 (proj2 (function_old_style_rejections None
                         (InputsSequence [InputSequence [x_csr]]) OutputsNone
                         None None None (ProfileBool true)))).
  reflexivity.
Defined.

